(** * The Quassel core: connection handshake, session registry and storage setup

    A shallow embedding of [src/core/core.cpp].  The [Core] object is a
    record of its member variables; every member function is a function on
    that record.  What the core does to the outside world (log lines, frames
    written to a socket, sockets closed, objects scheduled for deletion) is
    recorded, in order, in a trace of effects.  The collaborators whose code
    is not part of [core.cpp] (the storage backends, the TCP server, the
    build constants) are interfaces, as they are abstract classes in the
    source. *)

From Stdlib Require Import ZArith String Ascii DecimalString.
From stdpp Require Import base gmap strings list option.

Set Warnings "-register-all,-clear-no-such-hyp".

(** ** Qt values: [QVariant], [QVariantMap], [QString] helpers *)

Module Qt.

(** The kinds of [QVariant] the handshake protocol carries: strings,
    booleans, integers, nested lists and maps, and the registered user
    type [UserId]. *)
Inductive QVariant : Type :=
| QInvalid
| QBool (b : bool)
| QInt (z : Z)
| QUInt (n : N)
| QString (s : string)
| QVList (l : list QVariant)
| QVMap (m : gmap string QVariant)
| QUserId (u : Z).

Abbreviation QVariantMap := (gmap string QVariant).

(** [QString::number] for the two integer kinds. *)
Definition numberN (n : N) : string := NilZero.string_of_uint (N.to_uint n).
Definition numberZ (z : Z) : string := NilZero.string_of_int (Z.to_int z).

(** [QString::toUInt] and [QString::toInt] on plain decimal digits (with an
    optional leading minus for [toInt]); anything else does not convert. *)
Definition parseUInt (s : string) : option N :=
  match s with
  | EmptyString => None
  | _ => match NilEmpty.uint_of_string s with
         | Some d => let n := N.of_uint d in
                     if (n <? 4294967296)%N then Some n else None
         | None => None
         end
  end.

Definition parseInt (s : string) : option Z :=
  match s with
  | String "-" rest =>
      match rest with
      | EmptyString => None
      | _ => match NilEmpty.uint_of_string rest with
             | Some d => Some (- Z.of_N (N.of_uint d))%Z
             | None => None
             end
      end
  | EmptyString => None
  | _ => match NilEmpty.uint_of_string s with
         | Some d => Some (Z.of_N (N.of_uint d))
         | None => None
         end
  end.

Definition upperAscii (c : ascii) : ascii :=
  let n := nat_of_ascii c in
  if (97 <=? n)%nat && (n <=? 122)%nat then ascii_of_nat (n - 32) else c.

Definition lowerAscii (c : ascii) : ascii :=
  let n := nat_of_ascii c in
  if (65 <=? n)%nat && (n <=? 90)%nat then ascii_of_nat (n + 32) else c.

Fixpoint mapAscii (f : ascii -> ascii) (s : string) : string :=
  match s with
  | EmptyString => EmptyString
  | String c r => String (f c) (mapAscii f r)
  end.

Definition toUpper : string -> string := mapAscii upperAscii.
Definition toLower : string -> string := mapAscii lowerAscii.

Definition isEmpty (s : string) : bool :=
  match s with EmptyString => true | _ => false end.

(** A string converts to [false] exactly when it is empty, ["0"] or
    ["false"] (case-insensitive). *)
Definition stringToBool (s : string) : bool :=
  let l := toLower s in
  negb (String.eqb l "0" || String.eqb l "false" || isEmpty l).

Definition toString (v : QVariant) : string :=
  match v with
  | QString s => s
  | QBool b => if b then "true" else "false"
  | QInt z => numberZ z
  | QUInt n => numberN n
  | _ => EmptyString
  end.

Definition toUInt (v : QVariant) : N :=
  match v with
  | QUInt n => n
  | QInt z => Z.to_N (z mod 4294967296)
  | QBool b => if b then 1%N else 0%N
  | QString s => default 0%N (parseUInt s)
  | _ => 0%N
  end.

Definition toBool (v : QVariant) : bool :=
  match v with
  | QBool b => b
  | QInt z => negb (z =? 0)%Z
  | QUInt n => negb (n =? 0)%N
  | QString s => stringToBool s
  | _ => false
  end.

Definition toMap (v : QVariant) : QVariantMap :=
  match v with QVMap m => m | _ => ∅ end.

Definition toList (v : QVariant) : list QVariant :=
  match v with QVList l => l | _ => [] end.

(** [v.value<UserId>()]: the stored id, or a default-constructed
    [UserId] (which is 0) for any other kind. *)
Definition toUserId (v : QVariant) : Z :=
  match v with QUserId u => u | _ => 0%Z end.

(** [v == "literal"]: [QVariant::operator==] against a string.  When the
    kinds differ the literal is converted to the kind of [v] and the
    comparison fails if that conversion does. *)
Definition eqLit (v : QVariant) (lit : string) : bool :=
  match v with
  | QString s => String.eqb s lit
  | QBool b => Bool.eqb b (stringToBool lit)
  | QInt z => match parseInt lit with Some z' => (z =? z')%Z | None => false end
  | QUInt n => match parseUInt lit with Some n' => (n =? n')%N | None => false end
  | _ => false
  end.

(** [map.contains(key)] and the read-only [map[key]], which yields an
    invalid variant for a missing key. *)
Definition contains {K : Type} `{Countable K} {V : Type} (m : gmap K V) (k : K) : bool :=
  bool_decide (is_Some (m !! k)).

Definition value (m : QVariantMap) (k : string) : QVariant :=
  default QInvalid (m !! k).

(** [map.keys()] and [map.values()], in the map's iteration order. *)
Definition keys {K : Type} `{Countable K} {V : Type} (m : gmap K V) : list K :=
  (map_to_list m).*1.

Definition values {K : Type} `{Countable K} {V : Type} (m : gmap K V) : list V :=
  (map_to_list m).*2.

End Qt.

Import Qt.

(** ** Collaborators of the core *)

Definition UserId := Z.
Definition Socket := positive.

(** The abstract class [Storage].  [B] is the type of backend objects and
    [W] the persistent store they act on; every call that may touch the
    store takes it and returns it. *)
Module Storage.

Class Iface (B W : Type) := {
  isAvailable : B -> bool;
  displayName : B -> string;
  description : B -> string;
  init : B -> QVariantMap -> W -> bool * W;
  setup : B -> QVariantMap -> W -> bool * W;
  addUser : B -> string -> string -> W -> UserId * W;
  validateUser : B -> string -> string -> W -> UserId * W;
  sync : B -> W -> W
}.

End Storage.

(** The member [server] (a [QTcpServer], or an [SslServer] when built with
    OpenSSL). *)
Module Server.

Inductive HostAddress := AnyIPv6 | Any.

Class Iface (Srv : Type) := {
  listen : HostAddress -> N -> Srv -> bool * Srv;
  unsupportedSocketOperation : Srv -> bool;
  errorString : Srv -> string;
  serverPort : Srv -> N;
  close : Srv -> Srv;
  (** [qobject_cast<SslServer *>(&server)] is non-null *)
  isSslServer : Srv -> bool;
  certIsValid : Srv -> bool
}.

End Server.

(** Constants of namespace [Global], the build switches, and what the core
    asks of a socket object. *)
Class Globals := {
  coreNeedsProtocol : N;
  protocolVersion : N;
  quasselVersion : string;
  quasselBuildDate : string;
  DEFAULT_PORT : N;
  QT_NO_OPENSSL : bool;
  QT_NO_COMPRESS : bool;
  QT_NO_DEBUG : bool;
  (** [startTime().toString(Qt::TextDate)] *)
  startTimeText : string;
  (** [socket->peerAddress().toString()] *)
  peerAddress : Socket -> string;
  (** [qobject_cast<QSslSocket *>(socket)] is non-null *)
  isSslSocket : Socket -> bool
}.

(** [CoreSettings]: the persistent settings file. *)
Record CoreSettings := MkCoreSettings {
  storageSettings : QVariant;
  oldDbSettings : QVariant;
  coreState : QVariant;
  port : N
}.

(** A [SessionThread] object on the heap. *)
Record SessionThread := MkSessionThread {
  user : UserId;
  restore : bool;
  running : bool;
  clients : list Socket
}.

(** [sess->start()] and [sess->addClient(socket)] *)
Definition start (th : SessionThread) : SessionThread :=
  MkSessionThread (user th) (restore th) true (clients th).

Definition addClient (socket : Socket) (th : SessionThread) : SessionThread :=
  MkSessionThread (user th) (restore th) (running th) (clients th ++ [socket]).

Inductive LogLevel := DebugMsg | InfoMsg | WarningMsg | ErrorMsg.

(** What the core does to the outside, in the order it does it. *)
Inductive Effect (B : Type) :=
| Log (level : LogLevel) (text : list string)
| WriteDataToDevice (socket : Socket) (data : QVariantMap)
| SocketClose (socket : Socket)
| DisconnectFromHost (socket : Socket)
| StartServerEncryption (socket : Socket)
| SetUseCompression (socket : Socket)
| ConnectSignals (socket : Socket)
| DisconnectSignals (socket : Socket)
| SocketDeleteLater (socket : Socket)
| BackendDeleteLater (backend : B)
| ConnectBufferInfoUpdated (backend : B)
| StartSyncTimer (msecs : Z).

Arguments Log {B}.
Arguments WriteDataToDevice {B}.
Arguments SocketClose {B}.
Arguments DisconnectFromHost {B}.
Arguments StartServerEncryption {B}.
Arguments SetUseCompression {B}.
Arguments ConnectSignals {B}.
Arguments DisconnectSignals {B}.
Arguments SocketDeleteLater {B}.
Arguments BackendDeleteLater {B}.
Arguments ConnectBufferInfoUpdated {B}.
Arguments StartSyncTimer {B}.

(** How a member function can end other than by returning. *)
Inductive Failure :=
| NullDereference (what : string)
| AssertionFailed (what : string)
| Exit (code : Z).

(** ** The class [Core] *)

Module Core.

Section Members.

Context {B W Srv : Type}.

(** The member variables, followed by what lives outside the object: the
    [SessionThread] objects it allocated (a [SessionThread *] is an index
    into [heap]), the persistent store of the backends, the settings
    file and the effects so far. *)
Record t := Mk {
  storage : option B;
  configured : bool;
  _storageBackends : gmap string B;
  sessions : gmap UserId nat;
  blocksizes : gmap Socket N;
  clientInfo : gmap Socket QVariantMap;
  server : Srv;
  heap : list SessionThread;
  db : W;
  settings : CoreSettings;
  trace : list (Effect B)
}.

Definition set_storage v (s : t) :=
  Mk v (configured s) (_storageBackends s) (sessions s) (blocksizes s) (clientInfo s) (server s) (heap s) (db s) (settings s) (trace s).
Definition set_configured v (s : t) :=
  Mk (storage s) v (_storageBackends s) (sessions s) (blocksizes s) (clientInfo s) (server s) (heap s) (db s) (settings s) (trace s).
Definition set__storageBackends v (s : t) :=
  Mk (storage s) (configured s) v (sessions s) (blocksizes s) (clientInfo s) (server s) (heap s) (db s) (settings s) (trace s).
Definition set_sessions v (s : t) :=
  Mk (storage s) (configured s) (_storageBackends s) v (blocksizes s) (clientInfo s) (server s) (heap s) (db s) (settings s) (trace s).
Definition set_blocksizes v (s : t) :=
  Mk (storage s) (configured s) (_storageBackends s) (sessions s) v (clientInfo s) (server s) (heap s) (db s) (settings s) (trace s).
Definition set_clientInfo v (s : t) :=
  Mk (storage s) (configured s) (_storageBackends s) (sessions s) (blocksizes s) v (server s) (heap s) (db s) (settings s) (trace s).
Definition set_server v (s : t) :=
  Mk (storage s) (configured s) (_storageBackends s) (sessions s) (blocksizes s) (clientInfo s) v (heap s) (db s) (settings s) (trace s).
Definition set_heap v (s : t) :=
  Mk (storage s) (configured s) (_storageBackends s) (sessions s) (blocksizes s) (clientInfo s) (server s) v (db s) (settings s) (trace s).
Definition set_db v (s : t) :=
  Mk (storage s) (configured s) (_storageBackends s) (sessions s) (blocksizes s) (clientInfo s) (server s) (heap s) v (settings s) (trace s).
Definition set_settings v (s : t) :=
  Mk (storage s) (configured s) (_storageBackends s) (sessions s) (blocksizes s) (clientInfo s) (server s) (heap s) (db s) v (trace s).
Definition set_trace v (s : t) :=
  Mk (storage s) (configured s) (_storageBackends s) (sessions s) (blocksizes s) (clientInfo s) (server s) (heap s) (db s) (settings s) v.

(** A member function either returns a value in a new state, or stops
    the process at the state it had reached. *)
Inductive Res (A : Type) :=
| Done (a : A) (s : t)
| Abort (f : Failure) (s : t).

Definition M (A : Type) := t -> Res A.

Definition ret {A} (a : A) : M A := fun s => Done A a s.

Definition bind {A C} (m : M A) (k : A -> M C) : M C :=
  fun s => match m s with
           | Done _ a s' => k a s'
           | Abort _ f s' => Abort C f s'
           end.

Definition get : M t := fun s => Done t s s.
Definition modify (f : t -> t) : M unit := fun s => Done unit tt (f s).
Definition abort {A} (f : Failure) : M A := fun s => Abort A f s.

Definition emit (e : Effect B) : M unit :=
  modify (fun s => set_trace (trace s ++ [e]) s).

Definition quDebug (text : list string) : M unit := emit (Log DebugMsg text).
Definition quInfo (text : list string) : M unit := emit (Log InfoMsg text).
Definition quWarning (text : list string) : M unit := emit (Log WarningMsg text).
Definition quError (text : list string) : M unit := emit (Log ErrorMsg text).

(** [foreach(x, l) body] *)
Fixpoint foreach {A} (l : list A) (body : A -> M unit) : M unit :=
  match l with
  | [] => ret tt
  | x :: l' => bind (body x) (fun _ => foreach l' body)
  end.

(** A call [storage->f(...)] through the member pointer. *)
Definition viaStorage {A} (f : B -> W -> A * W) : M A :=
  fun s => match storage s with
           | None => Abort A (NullDereference "storage") s
           | Some b => let r := f b (db s) in Done A r.1 (set_db r.2 s)
           end.

(** A call [sess->f(...)] through a [SessionThread *]. *)
Definition viaSession (sess : option nat) (f : SessionThread -> SessionThread) : M unit :=
  match sess with
  | None => abort (NullDereference "sess")
  | Some p => modify (fun s => set_heap (alter f p (heap s)) s)
  end.

End Members.

Arguments t : clear implicits.
Arguments Res : clear implicits.
Arguments M : clear implicits.
Arguments Done {B W Srv A}.
Arguments Abort {B W Srv A}.

Notation "'do' x <- c1 ; c2" := (bind c1 (fun x => c2))
  (at level 10, x name, c1 at level 100, c2 at level 200).
Notation "'run' c1 ; c2" := (bind c1 (fun _ => c2))
  (at level 10, c1 at level 100, c2 at level 200).

Section Functions.

Context {B W Srv : Type} `{EqDecision B}.
Context `{!Storage.Iface B W} `{!Server.Iface Srv} `{!Globals}.

Local Abbreviation M := (M B W Srv).

Definition dquote : string := String (ascii_of_nat 34) EmptyString.
Definition newline : string := String (ascii_of_nat 10) EmptyString.

(** [arg(n, 2, 10, QChar('0'))] *)
Definition pad2 (z : Z) : string :=
  let d := numberZ z in
  if (String.length d <? 2)%nat then "0" +:+ d else d.

(** *** Network management *)

Definition startListening (port : N) : M bool :=
  do s <- get;
  let r := Server.listen Server.AnyIPv6 port (server s) in
  run modify (set_server r.2);
  do success <-
    (if negb r.1 && Server.unsupportedSocketOperation r.2 then
       let r4 := Server.listen Server.Any port r.2 in
       run modify (set_server r4.2);
       ret r4.1
     else ret r.1);
  do s <- get;
  run (if negb success then
         quError ["Could not open GUI client port " +:+ numberN port +:+ ": "
                    +:+ Server.errorString (server s)]
       else
         quInfo ["Listening for GUI clients on port "; numberN (Server.serverPort (server s));
                 " using protocol version "; numberN protocolVersion]);
  ret success.

Definition stopListening : M unit :=
  run modify (fun s => set_server (Server.close (server s)) s);
  quInfo ["No longer listening for GUI clients."].

(** *** Storage handling *)

Definition registerStorageBackend (backend : B) : M bool :=
  if Storage.isAvailable backend then
    run modify (fun s => set__storageBackends
                           (<[Storage.displayName backend := backend]> (_storageBackends s)) s);
    ret true
  else
    run emit (BackendDeleteLater backend);
    ret false.

Definition unregisterStorageBackend (backend : B) : M unit :=
  run modify (fun s => set__storageBackends
                         (delete (Storage.displayName backend) (_storageBackends s)) s);
  emit (BackendDeleteLater backend).

Definition initStorage (dbSettings : QVariantMap) (setup : bool) : M bool :=
  let backend := toString (value dbSettings "Backend") in
  if isEmpty backend then
    run modify (set_configured false);
    ret false
  else
    do s <- get;
    match _storageBackends s !! backend with
    | None =>
        run quError ["Selected storage backend is not available:"; backend];
        run modify (set_configured false);
        ret false
    | Some b =>
        run modify (set_storage (Some b));
        do ok <- viaStorage (fun b => Storage.init b dbSettings);
        do failed <-
          (if ok then ret false
           else if negb setup then ret true
           else
             do done <- viaStorage (fun b => Storage.setup b dbSettings);
             if done then
               do ok' <- viaStorage (fun b => Storage.init b dbSettings);
               ret (negb ok')
             else ret true);
        if failed then
          run quError ["Could not init storage!"];
          run modify (set_storage None);
          run modify (set_configured false);
          ret false
        else
          (* delete all other backends *)
          do s <- get;
          run foreach (values (_storageBackends s)) (fun x =>
                do s' <- get;
                if bool_decide (Some x = storage s') then ret tt
                else emit (BackendDeleteLater x));
          run modify (set__storageBackends ∅);
          do s <- get;
          run (match storage s with
               | Some b => emit (ConnectBufferInfoUpdated b)
               | None => ret tt
               end);
          run modify (set_configured true);
          ret true
    end.

Definition syncStorage : M unit :=
  do s <- get;
  if bool_decide (is_Some (storage s)) then
    viaStorage (fun b w => (tt, Storage.sync b w))
  else ret tt.

(** *** Construction and start-up *)

(** The state a [Core] object starts from, given the listening server,
    the store and the settings file it finds.  The constructor leaves
    [configured] unassigned; [init] assigns it before anything reads
    it. *)
Definition blank (srv : Srv) (w : W) (cs : CoreSettings) : t B W Srv :=
  Mk None false ∅ ∅ ∅ ∅ srv [] w cs [].

(** [Core::Core()]; [sqlite] is the object made by
    [new SqliteStorage(this)]. *)
Definition Core (sqlite : B) : M unit :=
  run modify (set_storage None);
  do _r <- registerStorageBackend sqlite;
  do s <- get;
  if (size (_storageBackends s) =? 0)%nat then
    run quWarning ["Could not initialize any storage backend! Exiting..."];
    run quWarning ["Currently, Quassel only supports SQLite3. You need to build your" +:+ newline
                     +:+ "Qt library with the sqlite plugin enabled in order for quasselcore" +:+ newline
                     +:+ "to work."];
    abort (Exit 1)
  else
    emit (StartSyncTimer (10 * 60 * 1000)).

Definition init : M unit :=
  run modify (set_configured false);
  do s <- get;
  let cs := settings s in
  do ok <- initStorage (toMap (storageSettings cs)) false;
  run modify (set_configured ok);
  run (if negb ok then
         run quWarning ["Core is currently not configured! Please connect with a Quassel Client for basic setup."];
         (* try to migrate old settings *)
         let old := toMap (oldDbSettings cs) in
         if negb (size old =? 0)%nat
            && String.eqb (toUpper (toString (value old "Type"))) "SQLITE" then
           let newSettings : QVariantMap := <["Backend" := QString "SQLite"]> ∅ in
           do ok' <- initStorage newSettings false;
           run modify (set_configured ok');
           if ok' then
             run quWarning ["...but thankfully I found some old settings to migrate!"];
             modify (fun s => set_settings
               (MkCoreSettings (QVMap newSettings) (oldDbSettings (settings s))
                               (coreState (settings s)) (port (settings s))) s)
           else ret tt
         else ret tt
       else ret tt);
  do listening <- startListening (port cs);
  if negb listening then abort (Exit 1) else ret tt.

(** [Core::instance()] when no instance exists yet. *)
Definition instance (sqlite : B) : M unit :=
  run Core sqlite;
  init.

(** *** Core setup *)

Definition setupCore (setupData_ : QVariant) : M string :=
  let setupData := toMap setupData_ in
  let user := toString (value setupData "AdminUser") in
  let setupData := delete "AdminUser" setupData in
  let password := toString (value setupData "AdminPasswd") in
  let setupData := delete "AdminPasswd" setupData in
  if isEmpty user || isEmpty password then
    ret "Admin user or password not set."
  else
    do ok <- initStorage setupData true;
    if negb ok then
      ret "Could not setup storage!"
    else
      run modify (fun s => set_settings
            (MkCoreSettings (QVMap setupData) (oldDbSettings (settings s))
                            (coreState (settings s)) (port (settings s))) s);
      run quInfo ["Creating admin user..."];
      do _uid <- viaStorage (fun b => Storage.addUser b user password);
      do _l <- startListening DEFAULT_PORT;
      ret EmptyString.

(** *** Sessions *)

Definition createSession (uid : UserId) (restore : bool) : M (option nat) :=
  do s <- get;
  if contains (sessions s) uid then
    run quWarning ["Calling createSession() when a session for the user already exists!"];
    ret None
  else
    let sess := length (heap s) in
    run modify (set_heap (heap s ++ [MkSessionThread uid restore false []]));
    run modify (fun s => set_sessions (<[uid := sess]> (sessions s)) s);
    run viaSession (Some sess) start;
    ret (Some sess).

Definition setupClientSession (socket : Socket) (uid : UserId) : M unit :=
  (* Find or create session for validated user *)
  do s <- get;
  do sess <- (if contains (sessions s) uid then ret (sessions s !! uid)
              else createSession uid false);
  (* Hand over socket, session then sends state itself *)
  run emit (DisconnectSignals socket);
  run modify (fun s => set_blocksizes (delete socket (blocksizes s)) s);
  run modify (fun s => set_clientInfo (delete socket (clientInfo s)) s);
  run (if bool_decide (sess = None) then
         run quWarning ["Could not initialize session for client:"; peerAddress socket];
         emit (SocketClose socket)
       else ret tt);
  viaSession sess (addClient socket).

(** *** Session restore *)

Definition saveState : M unit :=
  do s <- get;
  let activeSessions := (fun user => QUserId user) <$> keys (sessions s) in
  let state : QVariantMap := ∅ in
  let state := <["CoreStateVersion" := QInt 1]> state in
  let state := <["ActiveSessions" := QVList activeSessions]> state in
  modify (fun s => set_settings
    (MkCoreSettings (storageSettings (settings s)) (oldDbSettings (settings s))
                    (QVMap state) (port (settings s))) s).

Definition restoreState : M unit :=
  do s <- get;
  if negb (configured s) then ret tt
  else if negb (size (sessions s) =? 0)%nat then
    quWarning ["Calling restoreState() even though active sessions exist!"]
  else
    let activeSessions := toList (value (toMap (coreState (settings s))) "ActiveSessions") in
    if (0 <? length activeSessions)%nat then
      run quInfo ["Restoring previous core state..."];
      foreach activeSessions (fun v =>
        let user := toUserId v in
        do _sess <- createSession user true;
        ret tt)
    else ret tt.

(** *** The handshake *)

(** The version a [ClientInit] message declares (the [ver] of
    [processClientMessage]): the [ProtocolVersion] field when there is
    one, else 1 for a legacy client of build 732 or later, else 0. *)
Definition clientVersion (msg : QVariantMap) : N :=
  let ver := 0%N in
  let ver := if negb (contains msg "ProtocolVersion")
                && (732 <=? toUInt (value msg "ClientBuild"))%N
             then 1%N else ver in (* FIXME legacy *)
  let ver := if contains msg "ProtocolVersion"
             then toUInt (value msg "ProtocolVersion") else ver in
  ver.

Definition tooOldText : string :=
  "<b>Your Quassel Client is too old!</b><br>"
  +:+ "This core needs at least client/core protocol version " +:+ numberN coreNeedsProtocol
  +:+ ".<br>" +:+ "Please consider upgrading your client.".

Definition coreInfoText (updays uphours upmins : Z) : string :=
  "<b>Quassel Core Version " +:+ quasselVersion +:+ "</b><br>"
  +:+ "Built: " +:+ quasselBuildDate +:+ "<br>"
  +:+ "Up " +:+ numberZ updays +:+ "d" +:+ pad2 uphours +:+ "h" +:+ pad2 upmins
  +:+ "m (since " +:+ startTimeText +:+ ")".

Definition notInitializedText : string :=
  "<b>Client not initialized!</b><br>You need to send an init message before trying to login.".

Definition invalidLoginText : string :=
  "<b>Invalid username or password!</b><br>The username/password combination you supplied could not be found in the database.".

(** [uptime] is what [startTime().secsTo(QDateTime::currentDateTime())]
    reads when the message is a [ClientInit]. *)
Definition processClientMessage (uptime : Z) (socket : Socket) (msg : QVariantMap) : M unit :=
  if negb (contains msg "MsgType") then
    (* Client is way too old, does not even use the current init format *)
    run quWarning ["Antique client trying to connect... refusing."];
    emit (SocketClose socket)
  else if eqLit (value msg "MsgType") "ClientInit" then
    let reply : QVariantMap := ∅ in
    (* Just version information -- check it! *)
    let ver := clientVersion msg in
    if (ver <? coreNeedsProtocol)%N then
      let reply := <["MsgType" := QString "ClientInitReject"]> reply in
      let reply := <["Error" := QString tooOldText]> reply in
      run emit (WriteDataToDevice socket reply);
      run quWarning ["Client"; peerAddress socket; "too old, rejecting."];
      emit (SocketClose socket)
    else
      let reply := <["CoreVersion" := QString quasselVersion]> reply in
      let reply := <["CoreDate" := QString quasselBuildDate]> reply in
      let reply := <["CoreBuild" := QInt 860]> reply in (* FIXME legacy *)
      let reply := <["ProtocolVersion" := QUInt protocolVersion]> reply in
      let updays := (uptime ÷ 86400)%Z in
      let uptime := Z.rem uptime 86400 in
      let uphours := (uptime ÷ 3600)%Z in
      let uptime := Z.rem uptime 3600 in
      let upmins := (uptime ÷ 60)%Z in
      let reply := <["CoreInfo" := QString (coreInfoText updays uphours upmins)]> reply in
      do s <- get;
      let supportSsl :=
        if QT_NO_OPENSSL then false
        else Server.isSslServer (server s) && isSslSocket socket
             && Server.certIsValid (server s) in
      let supportsCompression := negb QT_NO_COMPRESS in
      let reply := <["SupportSsl" := QBool supportSsl]> reply in
      let reply := <["SupportsCompression" := QBool supportsCompression]> reply in
      let reply := <["LoginEnabled" := QBool true]> reply in
      (* check if we are configured, start wizard otherwise *)
      let reply :=
        if negb (configured s) then
          let reply := <["Configured" := QBool false]> reply in
          let backends :=
            (fun backend =>
               let v : QVariantMap := ∅ in
               let v := <["DisplayName" := QString (Storage.displayName backend)]> v in
               let v := <["Description" := QString (Storage.description backend)]> v in
               QVMap v) <$> values (_storageBackends s) in
          let reply := <["StorageBackends" := QVList backends]> reply in
          <["LoginEnabled" := QBool false]> reply
        else
          <["Configured" := QBool true]> reply in
      (* store for future reference *)
      run modify (fun s => set_clientInfo (<[socket := msg]> (clientInfo s)) s);
      let reply := <["MsgType" := QString "ClientInitAck"]> reply in
      run emit (WriteDataToDevice socket reply);
      run (if negb QT_NO_OPENSSL && (supportSsl && toBool (value msg "UseSsl")) then
             run quDebug ["Starting TLS for Client:"; peerAddress socket];
             emit (StartServerEncryption socket)
           else ret tt);
      if negb QT_NO_COMPRESS && (supportsCompression && toBool (value msg "UseCompression")) then
        run emit (SetUseCompression socket);
        quDebug ["Using compression for Client: "; peerAddress socket]
      else ret tt
  else
    (* for the rest, we need an initialized connection *)
    do s <- get;
    if negb (contains (clientInfo s) socket) then
      let reply : QVariantMap := ∅ in
      let reply := <["MsgType" := QString "ClientLoginReject"]> reply in
      let reply := <["Error" := QString notInitializedText]> reply in
      run emit (WriteDataToDevice socket reply);
      run quWarning ["Client"; peerAddress socket;
                     "did not send an init message before trying to login, rejecting."];
      emit (SocketClose socket)
    else if eqLit (value msg "MsgType") "CoreSetupData" then
      let reply : QVariantMap := ∅ in
      do result <- setupCore (value msg "SetupData");
      let reply :=
        if negb (isEmpty result) then
          let reply := <["MsgType" := QString "CoreSetupReject"]> reply in
          <["Error" := QString result]> reply
        else
          <["MsgType" := QString "CoreSetupAck"]> reply in
      emit (WriteDataToDevice socket reply)
    else if eqLit (value msg "MsgType") "ClientLogin" then
      let reply : QVariantMap := ∅ in
      do uid <- viaStorage (fun b => Storage.validateUser b (toString (value msg "User"))
                                                          (toString (value msg "Password")));
      if (uid =? 0)%Z then
        let reply := <["MsgType" := QString "ClientLoginReject"]> reply in
        let reply := <["Error" := QString invalidLoginText]> reply in
        emit (WriteDataToDevice socket reply)
      else
        let reply := <["MsgType" := QString "ClientLoginAck"]> reply in
        run emit (WriteDataToDevice socket reply);
        run quInfo ["Client "; peerAddress socket;
                    " initialized and authenticated successfully as " +:+ dquote
                      +:+ toString (value msg "User") +:+ dquote +:+ " (UserId: "
                      +:+ numberZ uid +:+ ")."];
        setupClientSession socket uid
    else ret tt.

(** [clientHasData] for the socket that signalled; [items] are the
    complete frames [SignalProxy::readDataFromDevice] delivers, in
    order (the frame-length counter in [blocksizes] is back at 0 after
    each of them).  [uptime] is the clock reading, as above. *)
Fixpoint clientHasData_loop (uptime : Z) (socket : Socket) (items : list QVariant) : M unit :=
  match items with
  | [] => ret tt
  | item :: rest =>
      let msg := toMap item in
      run processClientMessage uptime socket msg;
      do s <- get;
      if negb (contains (blocksizes s) socket) then ret tt (* no longer ours to handle! *)
      else clientHasData_loop uptime socket rest
  end.

Definition clientHasData (uptime : Z) (socket : Socket) (items : list QVariant) : M unit :=
  do s <- get;
  if negb QT_NO_DEBUG && negb (contains (blocksizes s) socket) then
    abort (AssertionFailed "socket && blocksizes.contains(socket)")
  else clientHasData_loop uptime socket items.

(** [incomingConnection]; [pending] are the sockets
    [server.nextPendingConnection()] hands out during the call. *)
Definition incomingConnection (pending : list Socket) : M unit :=
  foreach pending (fun socket =>
    run emit (ConnectSignals socket);
    run modify (fun s => set_blocksizes (<[socket := 0%N]> (blocksizes s)) s);
    run quInfo ["Client connected from "; peerAddress socket];
    do s <- get;
    if negb (configured s) then
      run modify (fun s => set_server (Server.close (server s)) s);
      quDebug ["Closing server for basic setup."]
    else ret tt).

(** [clientDisconnected] for the socket that signalled; [alive] tells
    whether the socket object still exists (the [qobject_cast]
    succeeds). *)
Definition clientDisconnected (socket : Socket) (alive : bool) : M unit :=
  run (if alive then
         run quInfo ["Non-authed client disconnected."; peerAddress socket];
         run modify (fun s => set_blocksizes (delete socket (blocksizes s)) s);
         run modify (fun s => set_clientInfo (delete socket (clientInfo s)) s);
         emit (SocketDeleteLater socket)
       else
         run quDebug ["Non-authed client disconnected. (socket allready destroyed)"];
         run modify (fun s => set_blocksizes (delete socket (blocksizes s)) s);
         modify (fun s => set_clientInfo (delete socket (clientInfo s)) s));
  (* make server listen again if still not configured *)
  do s <- get;
  if negb (configured s) then
    do _l <- startListening DEFAULT_PORT;
    ret tt
  else ret tt.

End Functions.

End Core.

(** ** Vocabulary of the properties *)

Section Vocabulary.

Context {B W Srv : Type} `{EqDecision B}.
Context `{!Storage.Iface B W} `{!Server.Iface Srv} `{!Globals}.

Local Abbreviation Core := (Core.t B W Srv).

(** The branch of [processClientMessage] a message takes, by the order of
    its tests on [MsgType]. *)
Inductive MsgKind := Antique | ClientInit | CoreSetupData | ClientLogin | OtherMsg.

Definition msgKind (msg : QVariantMap) : MsgKind :=
  if negb (contains msg "MsgType") then Antique
  else if eqLit (value msg "MsgType") "ClientInit" then ClientInit
  else if eqLit (value msg "MsgType") "CoreSetupData" then CoreSetupData
  else if eqLit (value msg "MsgType") "ClientLogin" then ClientLogin
  else OtherMsg.

(** The frames written to [socket], oldest first. *)
Definition written (socket : Socket) (tr : list (Effect B)) : list QVariantMap :=
  omap (fun e => match e with
                 | WriteDataToDevice so data => if decide (so = socket) then Some data else None
                 | _ => None
                 end) tr.

Definition closed (socket : Socket) (tr : list (Effect B)) : bool :=
  existsb (fun e => match e with
                    | SocketClose so => bool_decide (so = socket)
                    | _ => false
                    end) tr.

(** The backends scheduled for deletion. *)
Definition discarded (tr : list (Effect B)) : list B :=
  omap (fun e => match e with BackendDeleteLater b => Some b | _ => None end) tr.

(** The users that have a live [SessionThread] object. *)
Definition liveUsers (s : Core) : list UserId := user <$> Core.heap s.

(** The session registry and the heap agree: every registered pointer is
    a live [SessionThread] of that user, and every live [SessionThread]
    is the registered one of its user. *)
Definition sessions_wf (s : Core) : Prop :=
  (forall uid p, Core.sessions s !! uid = Some p ->
                 exists th, Core.heap s !! p = Some th /\ user th = uid)
  /\ (forall p th, Core.heap s !! p = Some th -> Core.sessions s !! user th = Some p).

(** The storage invariant of the specification. *)
Definition storage_iff_configured (s : Core) : Prop :=
  is_Some (Core.storage s) <-> Core.configured s = true.

(** One entry of the core from outside: a slot called by the event loop
    or a static member called by the application. *)
Inductive Call :=
| IncomingConnection (pending : list Socket)
| ClientHasData (uptime : Z) (socket : Socket) (items : list QVariant)
| ClientDisconnected (socket : Socket) (alive : bool)
| SyncStorage
| SaveState
| RestoreState.

Definition call (c : Call) : Core.M B W Srv unit :=
  match c with
  | IncomingConnection pending => Core.incomingConnection pending
  | ClientHasData uptime socket items => Core.clientHasData uptime socket items
  | ClientDisconnected socket alive => Core.clientDisconnected socket alive
  | SyncStorage => Core.syncStorage
  | SaveState => Core.saveState
  | RestoreState => Core.restoreState
  end.

(** Running a sequence of calls; the first one that stops the process
    ends the run. *)
Fixpoint calls (cs : list Call) : Core.M B W Srv unit :=
  match cs with
  | [] => Core.ret tt
  | c :: cs' => Core.bind (call c) (fun _ => calls cs')
  end.

(** The states the core can be in: after [Core::instance()] has built and
    initialised it, and after any further call that returned.  The
    storage access wrappers, which run on behalf of the sessions, only
    act on the store. *)
Inductive reachable : Core -> Prop :=
| reachable_instance sqlite srv w cs s :
    Core.instance sqlite (Core.blank srv w cs) = Core.Done tt s -> reachable s
| reachable_call c s s' :
    reachable s -> call c s = Core.Done tt s' -> reachable s'
| reachable_storageAccess s w :
    reachable s -> is_Some (Core.storage s) -> reachable (Core.set_db w s).

(** The two rejection payloads. *)
Definition initReject : QVariantMap :=
  <["Error" := QString Core.tooOldText]> (<["MsgType" := QString "ClientInitReject"]> ∅).

Definition loginReject : QVariantMap :=
  <["Error" := QString Core.invalidLoginText]> (<["MsgType" := QString "ClientLoginReject"]> ∅).

(** The credentials a login message carries. *)
Definition loginUser (msg : QVariantMap) : string := toString (value msg "User").
Definition loginPassword (msg : QVariantMap) : string := toString (value msg "Password").

(** [m] keeps [I]: from a state with [I] it returns, if it returns, in a
    state with [I]. *)
Definition preserves (I : Core -> Prop) {A} (m : Core.M B W Srv A) : Prop :=
  forall s, I s -> match m s with Core.Done _ s' => I s' | Core.Abort _ _ => True end.

(** An invariant that only reads the session registry and the heap. *)
Definition sessions_only (I : Core -> Prop) : Prop :=
  forall s s', Core.sessions s' = Core.sessions s -> Core.heap s' = Core.heap s -> I s -> I s'.

(** [m], run from [s], ends in a result and state with [Q] if it returns. *)
Definition ensures {A} (m : Core.M B W Srv A) (s : Core) (Q : A -> Core -> Prop) : Prop :=
  match m s with Core.Done a s' => Q a s' | Core.Abort _ _ => True end.


(** One entry of the [StorageBackends] list of an init acknowledgement. *)
Definition backendEntry (backend : B) : QVariant :=
  QVMap (<["Description" := QString (Storage.description backend)]>
         (<["DisplayName" := QString (Storage.displayName backend)]> ∅)).

(** The settings [setupCore] hands to the backend and stores: the setup
    data without the administrator's credentials. *)
Definition backendSettings (setupData : QVariant) : QVariantMap :=
  delete "AdminPasswd" (delete "AdminUser" (toMap setupData)).

End Vocabulary.

(** [m], run from [s], returns, with a result and state that satisfy [Q]. *)
Definition finishes {B W Srv A : Type} (m : Core.M B W Srv A) (s : Core.t B W Srv)
  (Q : A -> Core.t B W Srv -> Prop) : Prop :=
  match m s with Core.Done a s' => Q a s' | Core.Abort _ _ => False end.

(** The half of the storage invariant that every reachable state has: a
    configured core has an active backend. *)
Definition configured_has_storage {B W Srv : Type} (s : Core.t B W Srv) : Prop :=
  Core.configured s = true -> is_Some (Core.storage s).

(** An invariant that only reads [storage] and [configured]. *)
Definition storage_only {B W Srv : Type} (I : Core.t B W Srv -> Prop) : Prop :=
  forall s s', Core.storage s' = Core.storage s -> Core.configured s' = Core.configured s ->
               I s -> I s'.

(** ** A sample installation

    One backend object that registers under the name "SQLite", a store that
    remembers whether the database file has been created and which users
    exist, a server that can always bind, and the constants of the
    specification's scenario (minimum protocol version 10). *)

Module Sample.

Inductive Backend := SqliteStorage.

#[export] Instance Backend_eq_dec : EqDecision Backend.
Proof. intros [] []. left. reflexivity. Defined.

Record Store := MkStore {
  created : bool;
  users : list (string * string)
}.

Fixpoint findUser (name password : string) (l : list (string * string)) (id : Z) : UserId :=
  match l with
  | [] => 0%Z
  | (n, p) :: l' =>
      if String.eqb n name && String.eqb p password then id
      else findUser name password l' (id + 1)%Z
  end.

#[export] Instance storage : Storage.Iface Backend Store := {|
  Storage.isAvailable _ := true;
  Storage.displayName _ := "SQLite";
  Storage.description _ := "SQLite is a file-based database engine.";
  Storage.init _ _ (w : Store) := (created w, w);
  Storage.setup _ _ (w : Store) := (true, MkStore true (users w));
  Storage.addUser _ name password (w : Store) :=
    (Z.of_nat (S (length (users w))), MkStore (created w) (users w ++ [(name, password)]));
  Storage.validateUser _ name password (w : Store) := (findUser name password (users w) 1%Z, w);
  Storage.sync _ (w : Store) := w
|}.

(** The server is just its listening flag. *)
#[export] Instance server : Server.Iface bool := {|
  Server.listen _ _ (listening : bool) := if listening then (false, true) else (true, true);
  Server.unsupportedSocketOperation _ := false;
  Server.errorString _ := "The bound address is already in use";
  Server.serverPort _ := 4242%N;
  Server.close _ := false;
  Server.isSslServer _ := false;
  Server.certIsValid _ := false
|}.

#[export] Instance globals : Globals := {|
  coreNeedsProtocol := 10%N;
  protocolVersion := 10%N;
  quasselVersion := "0.3.1";
  quasselBuildDate := "Oct 30 2008";
  DEFAULT_PORT := 4242%N;
  QT_NO_OPENSSL := true;
  QT_NO_COMPRESS := false;
  QT_NO_DEBUG := true;
  startTimeText := "Thu Oct 30 12:00:00 2008";
  peerAddress _ := "127.0.0.1";
  isSslSocket _ := false
|}.

Definition freshStore : Store := MkStore false [].
Definition usedStore : Store := MkStore true [("alice", "secret")].

Definition noSettings : CoreSettings :=
  MkCoreSettings QInvalid QInvalid QInvalid 4242%N.

Definition sqliteSettings : CoreSettings :=
  MkCoreSettings (QVMap (<["Backend" := QString "SQLite"]> ∅)) QInvalid QInvalid 4242%N.

(** The state of a core started on a machine with nothing set up, and of
    one started on a machine that has been set up before. *)
Definition started (w : Store) (cs : CoreSettings) : Core.Res Backend Store bool unit :=
  Core.instance SqliteStorage (Core.blank false w cs).

Definition stateOf {A} (r : Core.Res Backend Store bool A) : Core.t Backend Store bool :=
  match r with Core.Done _ s => s | Core.Abort _ s => s end.

Definition unconfiguredCore := stateOf (started freshStore noSettings).
Definition configuredCore := stateOf (started usedStore sqliteSettings).

Definition msgInit : QVariant :=
  QVMap (<["MsgType" := QString "ClientInit"]> (<["ProtocolVersion" := QUInt 10]> ∅)).

Definition msgInitOld : QVariant :=
  QVMap (<["MsgType" := QString "ClientInit"]> (<["ProtocolVersion" := QUInt 5]> ∅)).

Definition msgSetup (backend : string) : QVariant :=
  QVMap (<["MsgType" := QString "CoreSetupData"]>
         (<["SetupData" := QVMap (<["AdminUser" := QString "admin"]>
                                  (<["AdminPasswd" := QString "hunter2"]>
                                   (<["Backend" := QString backend]> ∅)))]> ∅)).

Definition msgLogin (name password : string) : QVariant :=
  QVMap (<["MsgType" := QString "ClientLogin"]>
         (<["User" := QString name]> (<["Password" := QString password]> ∅))).

Definition msgSetupNoBackend : QVariant :=
  QVMap (<["MsgType" := QString "CoreSetupData"]>
         (<["SetupData" := QVMap (<["AdminUser" := QString "admin"]>
                                  (<["AdminPasswd" := QString "hunter2"]> ∅))]> ∅)).

Definition sqliteBackend : QVariantMap := <["Backend" := QString "SQLite"]> ∅.
Definition otherBackend : QVariantMap := <["Backend" := QString "MySQL"]> ∅.

(** A configured core after a client on socket 1 has sent an init message
    and then one more setup message. *)
Definition afterBadSetup (setup : QVariant) : Core.t Backend Store bool :=
  stateOf (calls [IncomingConnection [1%positive];
                  ClientHasData 100 1%positive [msgInit; setup]] configuredCore).

(** A client logs in on a core that has never been set up. *)
Definition loginBeforeSetup : Core.Res Backend Store bool unit :=
  calls [IncomingConnection [1%positive];
         ClientHasData 100 1%positive [msgInit; msgLogin "alice" "secret"]] unconfiguredCore.

(** A client sets the core up, asks for another backend, and starts the
    handshake again. *)
Definition failedReconfiguration : list Call :=
  [IncomingConnection [1%positive];
   ClientHasData 100 1%positive [msgInit; msgSetup "SQLite"; msgSetup "MySQL"; msgInit]].

Definition afterFailedReconfiguration : Core.Res Backend Store bool unit :=
  calls failedReconfiguration unconfiguredCore.

(** The core right after its constructor, before [init]. *)
Definition constructed : Core.t Backend Store bool :=
  stateOf (Core.Core SqliteStorage (Core.blank false usedStore sqliteSettings)).


(** A configured core with one client that has sent its init message, and
    the same core after that client has logged in as alice. *)
Definition handshakeCalls : list Call :=
  [IncomingConnection [1%positive]; ClientHasData 100 1%positive [msgInit]].

Definition loginCalls : list Call :=
  [IncomingConnection [1%positive];
   ClientHasData 100 1%positive [msgInit; msgLogin "alice" "secret"]].

Definition handshaken : Core.t Backend Store bool :=
  stateOf (calls handshakeCalls configuredCore).

Definition loggedIn : Core.t Backend Store bool :=
  stateOf (calls loginCalls configuredCore).

(** The core state saved while alice is logged in, and a core restarted on
    the settings file that holds it. *)
Definition saved : Core.t Backend Store bool := stateOf (Core.saveState loggedIn).

Definition restarted : Core.t Backend Store bool :=
  stateOf (started usedStore (Core.settings saved)).

End Sample.

(** ** The handshake *)

Section Handshake.
Context {B W Srv : Type} `{EqDecision B}.
Context `{!Storage.Iface B W} `{!Server.Iface Srv} `{!Globals}.
Implicit Types (s : Core.t B W Srv) (msg : QVariantMap) (socket : Socket).



Lemma msgKind_ClientInit msg :
  msgKind msg = ClientInit ->
  contains msg "MsgType" = true /\ eqLit (value msg "MsgType") "ClientInit" = true.
Proof.
  unfold msgKind.
  destruct (contains msg "MsgType"); simpl; [| discriminate].
  destruct (eqLit _ "ClientInit"); [auto |].
  destruct (eqLit _ "CoreSetupData"); [discriminate |].
  destruct (eqLit _ "ClientLogin"); discriminate.
Qed.

Lemma msgKind_ClientLogin msg :
  msgKind msg = ClientLogin ->
  contains msg "MsgType" = true
  /\ eqLit (value msg "MsgType") "ClientInit" = false
  /\ eqLit (value msg "MsgType") "CoreSetupData" = false
  /\ eqLit (value msg "MsgType") "ClientLogin" = true.
Proof.
  unfold msgKind.
  destruct (contains msg "MsgType"); simpl; [| discriminate].
  destruct (eqLit _ "ClientInit"); [discriminate |].
  destruct (eqLit _ "CoreSetupData"); [discriminate |].
  destruct (eqLit _ "ClientLogin"); [auto | discriminate].
Qed.

(** C6: a [ClientInit] message whose declared version (the
    [ProtocolVersion] field if present, else 1 or 0 by the legacy build
    number) is below [Global::coreNeedsProtocol] is answered with one frame,
    a [ClientInitReject] carrying an [Error] string, after which the socket
    is closed; no other frame is written, the session registry, the heap of
    sessions and the per-socket bookkeeping are unchanged. *)
Theorem old_client_rejected uptime socket msg s :
  msgKind msg = ClientInit ->
  (Core.clientVersion msg < coreNeedsProtocol)%N ->
  exists s',
    Core.processClientMessage uptime socket msg s = Core.Done tt s'
    /\ Core.trace s' = Core.trace s ++
         [WriteDataToDevice socket initReject;
          Log WarningMsg ["Client"; peerAddress socket; "too old, rejecting."];
          SocketClose socket]
    /\ initReject !! "MsgType" = Some (QString "ClientInitReject")
    /\ (exists error, initReject !! "Error" = Some (QString error))
    /\ written socket (Core.trace s') = written socket (Core.trace s) ++ [initReject]
    /\ closed socket (Core.trace s') = true
    /\ Core.heap s' = Core.heap s
    /\ Core.sessions s' = Core.sessions s
    /\ Core.clientInfo s' = Core.clientInfo s
    /\ Core.blocksizes s' = Core.blocksizes s.
Proof.
  intros [Hc Hi]%msgKind_ClientInit Hver.
  apply N.ltb_lt in Hver.
  unfold Core.processClientMessage.
  rewrite Hc, Hi, Hver. simpl.
  eexists. split; [reflexivity |]. simpl.
  split; [by rewrite <- !app_assoc |].
  split; [reflexivity |].
  split; [by eexists |].
  unfold written, closed. rewrite <- !app_assoc, omap_app, existsb_app. simpl.
  rewrite decide_True by done. rewrite bool_decide_true by done.
  rewrite orb_true_r. done.
Qed.

Lemma failed_login uptime socket msg s b :
  msgKind msg = ClientLogin ->
  contains (Core.clientInfo s) socket = true ->
  Core.storage s = Some b ->
  (Storage.validateUser b (loginUser msg) (loginPassword msg) (Core.db s)).1 = 0%Z ->
  Core.processClientMessage uptime socket msg s =
    Core.Done tt
      (Core.set_trace (Core.trace s ++ [WriteDataToDevice socket loginReject])
         (Core.set_db (Storage.validateUser b (loginUser msg) (loginPassword msg) (Core.db s)).2 s)).
Proof.
  intros (Hc & Hi & Hs & Hl)%msgKind_ClientLogin Hinfo Hb Hv.
  unfold Core.processClientMessage.
  rewrite Hc, Hi. simpl.
  unfold Core.bind at 1. unfold Core.get. rewrite Hinfo, Hs, Hl. simpl.
  unfold Core.bind, Core.viaStorage. rewrite Hb.
  unfold loginUser, loginPassword in Hv. rewrite Hv. reflexivity.
Qed.

(** C8: two [ClientLogin] messages for which [validateUser] reports
    failure (user id 0) are answered with the same payload, whatever user
    name and password each carried. *)
Theorem login_reject_uniform uptime1 uptime2 socket1 socket2 msg1 msg2 s1 s2 b1 b2 :
  msgKind msg1 = ClientLogin ->
  msgKind msg2 = ClientLogin ->
  contains (Core.clientInfo s1) socket1 = true ->
  contains (Core.clientInfo s2) socket2 = true ->
  Core.storage s1 = Some b1 ->
  Core.storage s2 = Some b2 ->
  (Storage.validateUser b1 (loginUser msg1) (loginPassword msg1) (Core.db s1)).1 = 0%Z ->
  (Storage.validateUser b2 (loginUser msg2) (loginPassword msg2) (Core.db s2)).1 = 0%Z ->
  exists payload s1' s2',
    Core.processClientMessage uptime1 socket1 msg1 s1 = Core.Done tt s1'
    /\ Core.processClientMessage uptime2 socket2 msg2 s2 = Core.Done tt s2'
    /\ Core.trace s1' = Core.trace s1 ++ [WriteDataToDevice socket1 payload]
    /\ Core.trace s2' = Core.trace s2 ++ [WriteDataToDevice socket2 payload].
Proof.
  intros K1 K2 I1 I2 B1 B2 V1 V2.
  exists loginReject. do 2 eexists.
  split; [by apply failed_login |].
  split; [by apply failed_login |].
  split; reflexivity.
Qed.

End Handshake.

(** ** The session registry *)

Section Sessions.
Context {B W Srv : Type} `{EqDecision B}.
Context `{!Storage.Iface B W} `{!Server.Iface Srv} `{!Globals}.
Implicit Types (s : Core.t B W Srv) (msg : QVariantMap) (socket : Socket) (uid : UserId).
Implicit Types (I : Core.t B W Srv -> Prop).

Lemma contains_true {K : Type} `{Countable K} {V : Type} (m : gmap K V) k :
  contains m k = true <-> is_Some (m !! k).
Proof. unfold contains. by rewrite bool_decide_eq_true. Qed.

Lemma contains_false {K : Type} `{Countable K} {V : Type} (m : gmap K V) k :
  contains m k = false <-> m !! k = None.
Proof. unfold contains. by rewrite bool_decide_eq_false, eq_None_not_Some. Qed.

(** [createSession] for a user without a session. *)
Lemma createSession_new uid restore s :
  Core.sessions s !! uid = None ->
  Core.createSession uid restore s =
    Core.Done (Some (length (Core.heap s)))
      (Core.set_heap (Core.heap s ++ [MkSessionThread uid restore true []])
         (Core.set_sessions (<[uid := length (Core.heap s)]> (Core.sessions s)) s)).
Proof.
  intros Hnone. unfold Core.createSession, Core.bind, Core.get.
  apply contains_false in Hnone as ->. simpl.
  f_equal. destruct s; unfold Core.set_heap, Core.set_sessions; simpl. f_equal.
  rewrite alter_app_r_alt by lia. by rewrite Nat.sub_diag.
Qed.

(** [createSession] for a user who has one. *)
Lemma createSession_existing uid restore s :
  is_Some (Core.sessions s !! uid) ->
  Core.createSession uid restore s =
    Core.Done None
      (Core.set_trace
         (Core.trace s ++
            [Log WarningMsg ["Calling createSession() when a session for the user already exists!"]]) s).
Proof.
  intros Hsome. unfold Core.createSession, Core.bind, Core.get.
  apply contains_true in Hsome as ->. reflexivity.
Qed.

Lemma sessions_wf_new uid restore s :
  Core.sessions s !! uid = None ->
  sessions_wf s ->
  sessions_wf (Core.set_heap (Core.heap s ++ [MkSessionThread uid restore true []])
                 (Core.set_sessions (<[uid := length (Core.heap s)]> (Core.sessions s)) s)).
Proof.
  intros Hnone [Hreg Hlive]. split; simpl.
  - intros u p. rewrite lookup_insert. case_decide as Hu.
    + intros [= <-]. subst u. exists (MkSessionThread uid restore true []).
      split; [| reflexivity]. by rewrite lookup_app_r, Nat.sub_diag.
    + intros Hp. destruct (Hreg u p Hp) as (th & Hth & Hus).
      exists th. split; [by apply lookup_app_l_Some | done].
  - intros p th. rewrite lookup_app_Some. intros [Hth | [Hge Hth]].
    + rewrite lookup_insert_ne; [by apply Hlive |].
      intros Hu. apply Hlive in Hth. rewrite <- Hu in Hth. congruence.
    + apply list_lookup_singleton_Some in Hth as [Hp <-]. simpl.
      rewrite lookup_insert_eq. f_equal. lia.
Qed.

Lemma sessions_wf_alter f p s :
  (forall th, user (f th) = user th) ->
  sessions_wf s ->
  sessions_wf (Core.set_heap (alter f p (Core.heap s)) s).
Proof.
  intros Hf [Hreg Hlive]. split; simpl.
  - intros u q Hq. destruct (Hreg u q Hq) as (th & Hth & Hus).
    destruct (decide (p = q)) as [-> | Hne].
    + exists (f th). rewrite list_lookup_alter_eq, Hth. split; [done | by rewrite Hf].
    + exists th. by rewrite list_lookup_alter_ne.
  - intros q th. destruct (decide (p = q)) as [-> | Hne].
    + rewrite list_lookup_alter_eq. destruct (Core.heap s !! q) as [th0 |] eqn:E; [| done].
      intros [= <-]. rewrite Hf. by apply Hlive.
    + rewrite list_lookup_alter_ne by done. apply Hlive.
Qed.

(** A registry that agrees with the heap holds at most one live
    [SessionThread] per user. *)
Lemma sessions_wf_unique s p q th th' :
  sessions_wf s ->
  Core.heap s !! p = Some th -> Core.heap s !! q = Some th' ->
  user th = user th' -> p = q.
Proof.
  intros [_ Hlive] Hp Hq Hu. apply Hlive in Hp, Hq. congruence.
Qed.

(** *** Invariants of member functions *)

Lemma preserves_ret I {A} (a : A) : preserves I (Core.ret a).
Proof. intros s Hs. exact Hs. Qed.

Lemma preserves_abort I {A} f : preserves I (@Core.abort B W Srv A f).
Proof. intros s Hs. exact Logic.I. Qed.

Lemma preserves_get I : preserves I Core.get.
Proof. intros s Hs. exact Hs. Qed.

Lemma preserves_bind I {A C} (m : Core.M B W Srv A) (k : A -> Core.M B W Srv C) :
  preserves I m -> (forall a, preserves I (k a)) -> preserves I (Core.bind m k).
Proof.
  intros Hm Hk s Hs. unfold Core.bind. specialize (Hm s Hs).
  destruct (m s) as [a s' | f s']; [by apply Hk | done].
Qed.

Lemma preserves_modify I f :
  (forall s, I s -> I (f s)) -> preserves I (Core.modify f).
Proof. intros Hf s Hs. by apply Hf. Qed.

Lemma preserves_foreach I {A} (l : list A) body :
  (forall x, preserves I (body x)) -> preserves I (Core.foreach l body).
Proof.
  intros Hbody. induction l as [| x l IH]; simpl.
  - apply preserves_ret.
  - apply preserves_bind; [apply Hbody | intros _; apply IH].
Qed.

Lemma sessions_wf_sessions_only : sessions_only (@sessions_wf B W Srv).
Proof. intros s s' Hs Hh. unfold sessions_wf. by rewrite Hs, Hh. Qed.

Section SessionsOnly.
Variable I : Core.t B W Srv -> Prop.
Hypothesis I_only : sessions_only I.
Hypothesis I_new : forall uid restore s,
  Core.sessions s !! uid = None -> I s ->
  I (Core.set_heap (Core.heap s ++ [MkSessionThread uid restore true []])
       (Core.set_sessions (<[uid := length (Core.heap s)]> (Core.sessions s)) s)).
Hypothesis I_alter : forall f p s,
  (forall th, user (f th) = user th) -> I s ->
  I (Core.set_heap (alter f p (Core.heap s)) s).

Lemma preserves_emit e : preserves I (Core.emit e).
Proof. apply preserves_modify. intros s. by apply I_only. Qed.

Lemma preserves_viaStorage {A} (f : B -> W -> A * W) : preserves I (Core.viaStorage f).
Proof.
  intros s Hs. unfold Core.viaStorage. destruct (Core.storage s); [| done].
  revert Hs. by apply I_only.
Qed.

Lemma preserves_viaSession sess f :
  (forall th, user (f th) = user th) -> preserves I (Core.viaSession sess f).
Proof.
  intros Hf. destruct sess as [p |]; simpl.
  - apply preserves_modify. intros s. by apply I_alter.
  - apply preserves_abort.
Qed.

Lemma preserves_createSession uid restore : preserves I (Core.createSession uid restore).
Proof.
  intros s Hs. destruct (Core.sessions s !! uid) as [p |] eqn:E.
  - rewrite createSession_existing by eauto. revert Hs. by apply I_only.
  - rewrite createSession_new by done. by apply I_new.
Qed.

Ltac keep1 :=
  cbv beta zeta;
  lazymatch goal with
  | |- @preserves _ _ _ _ _ (Core.ret _) => apply preserves_ret
  | |- @preserves _ _ _ _ _ Core.get => apply preserves_get
  | |- @preserves _ _ _ _ _ (Core.abort _) => apply preserves_abort
  | |- @preserves _ _ _ _ _ (Core.emit _) => apply preserves_emit
  | |- @preserves _ _ _ _ _ (Core.quDebug _) => apply preserves_emit
  | |- @preserves _ _ _ _ _ (Core.quInfo _) => apply preserves_emit
  | |- @preserves _ _ _ _ _ (Core.quWarning _) => apply preserves_emit
  | |- @preserves _ _ _ _ _ (Core.quError _) => apply preserves_emit
  | |- @preserves _ _ _ _ _ (Core.viaStorage _) => apply preserves_viaStorage
  | |- @preserves _ _ _ _ _ (Core.createSession _ _) => apply preserves_createSession
  | |- @preserves _ _ _ _ _ (Core.viaSession _ _) => apply preserves_viaSession; by intros []
  | |- @preserves _ _ _ _ _ (Core.modify _) => apply preserves_modify; intros ?; by apply I_only
  | |- @preserves _ _ _ _ _ (Core.foreach _ _) => apply preserves_foreach; intros ?
  | |- @preserves _ _ _ _ _ (Core.bind _ _) => apply preserves_bind; [| intros ?]
  | |- @preserves _ _ _ _ _ (if ?c then _ else _) => destruct c
  | |- @preserves _ _ _ _ _ (match ?x with _ => _ end) => destruct x
  end.
Ltac keep := repeat keep1.

Lemma preserves_startListening port : preserves I (Core.startListening port).
Proof. unfold Core.startListening. keep. Qed.

Lemma preserves_initStorage dbSettings setup : preserves I (Core.initStorage dbSettings setup).
Proof. unfold Core.initStorage. keep. Qed.

Lemma preserves_setupCore setupData : preserves I (Core.setupCore setupData).
Proof.
  unfold Core.setupCore. keep.
  all: lazymatch goal with
       | |- @preserves _ _ _ _ _ (Core.initStorage _ _) => apply preserves_initStorage
       | |- @preserves _ _ _ _ _ (Core.startListening _) => apply preserves_startListening
       end.
Qed.

Lemma preserves_setupClientSession socket uid :
  preserves I (Core.setupClientSession socket uid).
Proof. unfold Core.setupClientSession. keep. Qed.

Lemma preserves_processClientMessage uptime socket msg :
  preserves I (Core.processClientMessage uptime socket msg).
Proof.
  unfold Core.processClientMessage. keep.
  all: lazymatch goal with
       | |- @preserves _ _ _ _ _ (Core.setupCore _) => apply preserves_setupCore
       | |- @preserves _ _ _ _ _ (Core.setupClientSession _ _) => apply preserves_setupClientSession
       end.
Qed.

Lemma preserves_clientHasData uptime socket items :
  preserves I (Core.clientHasData uptime socket items).
Proof.
  unfold Core.clientHasData. keep.
  induction items as [| item rest IH]; simpl; keep.
  all: lazymatch goal with
       | |- @preserves _ _ _ _ _ (Core.processClientMessage _ _ _) => apply preserves_processClientMessage
       | |- _ => apply IH
       end.
Qed.

Lemma preserves_incomingConnection pending : preserves I (Core.incomingConnection pending).
Proof. unfold Core.incomingConnection. keep. Qed.

Lemma preserves_clientDisconnected socket alive :
  preserves I (Core.clientDisconnected socket alive).
Proof. unfold Core.clientDisconnected. keep; apply preserves_startListening. Qed.

Lemma preserves_syncStorage : preserves I Core.syncStorage.
Proof. unfold Core.syncStorage. keep. Qed.

Lemma preserves_saveState : preserves I Core.saveState.
Proof. unfold Core.saveState. keep. Qed.

Lemma preserves_restoreState : preserves I Core.restoreState.
Proof. unfold Core.restoreState. keep. Qed.

Lemma preserves_call c : preserves I (call c).
Proof.
  destruct c; simpl.
  - apply preserves_incomingConnection.
  - apply preserves_clientHasData.
  - apply preserves_clientDisconnected.
  - apply preserves_syncStorage.
  - apply preserves_saveState.
  - apply preserves_restoreState.
Qed.

Lemma preserves_instance sqlite : preserves I (Core.instance sqlite).
Proof.
  unfold Core.instance, Core.Core, Core.init, Core.registerStorageBackend. keep.
  all: lazymatch goal with
       | |- @preserves _ _ _ _ _ (Core.initStorage _ _) => apply preserves_initStorage
       | |- @preserves _ _ _ _ _ (Core.startListening _) => apply preserves_startListening
       end.
Qed.

(** Such an invariant of the blank state holds in every reachable
    state. *)
Lemma reachable_invariant :
  (forall srv w cs, I (Core.blank srv w cs)) ->
  forall s, reachable s -> I s.
Proof.
  intros Hblank s Hreach. induction Hreach as [sqlite srv w cs s Hs | c s s' _ IH Hs | s w _ IH _].
  - pose proof (preserves_instance sqlite _ (Hblank srv w cs)) as Hp.
    by rewrite Hs in Hp.
  - pose proof (preserves_call c _ IH) as Hp. by rewrite Hs in Hp.
  - revert IH. by apply I_only.
Qed.
End SessionsOnly.

Lemma reachable_sessions_wf s : reachable s -> sessions_wf s.
Proof.
  apply reachable_invariant.
  - apply sessions_wf_sessions_only.
  - intros uid restore s0 Hnone Hwf. by apply sessions_wf_new.
  - intros f p s0 Hf Hwf. by apply sessions_wf_alter.
  - intros srv w cs. split; simpl.
    + intros uid p. by rewrite lookup_empty.
    + intros p th. by rewrite lookup_nil.
Qed.

End Sessions.

(** ** Session restore *)

Section SessionRestore.
Context {B W Srv : Type} `{EqDecision B}.
Context `{!Storage.Iface B W} `{!Server.Iface Srv} `{!Globals}.
Implicit Types (s r : Core.t B W Srv) (socket : Socket) (uid : UserId).

Lemma sessions_wf_NoDup s : sessions_wf s -> NoDup (liveUsers s).
Proof.
  intros [_ Hlive]. unfold liveUsers. apply NoDup_alt. intros i j u.
  rewrite !list_lookup_fmap.
  destruct (Core.heap s !! i) as [th |] eqn:Ei; [| done].
  destruct (Core.heap s !! j) as [th' |] eqn:Ej; [| done].
  simpl. intros [= Hu] [= Hu']. apply Hlive in Ei, Ej. congruence.
Qed.

Lemma setupClientSession_existing socket uid p s :
  Core.sessions s !! uid = Some p ->
  exists s',
    Core.setupClientSession socket uid s = Core.Done tt s'
    /\ Core.sessions s' = Core.sessions s
    /\ Core.heap s' = alter (addClient socket) p (Core.heap s)
    /\ Core.trace s' = Core.trace s ++ [DisconnectSignals socket]
    /\ Core.blocksizes s' = delete socket (Core.blocksizes s)
    /\ Core.clientInfo s' = delete socket (Core.clientInfo s).
Proof.
  intros Hp. unfold Core.setupClientSession. unfold Core.bind at 1. unfold Core.get.
  assert (Hc : contains (Core.sessions s) uid = true) by (apply contains_true; eauto).
  rewrite Hc, Hp. eexists. split; [reflexivity |]. done.
Qed.

(** The loop of [restoreState] over users that have no session yet. *)
Lemma restore_loop (l : list UserId) :
  forall r,
    NoDup l -> (forall u, u ∈ l -> Core.sessions r !! u = None) -> sessions_wf r ->
    exists r',
      Core.foreach (QUserId <$> l)
        (fun v => Core.bind (Core.createSession (toUserId v) true) (fun _ => Core.ret tt)) r
        = Core.Done tt r'
      /\ Core.heap r' = Core.heap r ++ ((fun u => MkSessionThread u true true []) <$> l)
      /\ dom (Core.sessions r') = dom (Core.sessions r) ∪ list_to_set l
      /\ sessions_wf r'
      /\ Core.trace r' = Core.trace r
      /\ Core.configured r' = Core.configured r
      /\ Core.storage r' = Core.storage r.
Proof.
  induction l as [| u l IH]; intros r Hnd Hfresh Hwf.
  - exists r. simpl. rewrite app_nil_r. split; [done |]. split; [done |].
    split; [set_solver | done].
  - pose proof (NoDup_cons_1_1 _ _ Hnd) as Hu. apply NoDup_cons_1_2 in Hnd. simpl.
    unfold Core.bind at 1. unfold Core.bind at 1.
    rewrite createSession_new by (apply Hfresh; set_solver).
    set (r1 := Core.set_heap _ _).
    destruct (IH r1) as (r' & Hrun & Hheap & Hdom & Hwf' & Htr & Hcf & Hst).
    + done.
    + intros v Hv. subst r1. simpl. rewrite lookup_insert_ne; [apply Hfresh; set_solver |].
      intros <-. done.
    + by apply sessions_wf_new; [apply Hfresh; set_solver |].
    + exists r'. split; [exact Hrun |]. subst r1. simpl in *.
      rewrite Hheap, <- app_assoc. split; [done |].
      rewrite Hdom, dom_insert_L. split; [set_solver | done].
Qed.

Lemma keys_dom (m : gmap UserId nat) : list_to_set (keys m) = dom m.
Proof.
  apply set_eq. intros u. unfold keys.
  rewrite elem_of_list_to_set, elem_of_dom, list_elem_of_fmap. split.
  - intros ([u' p] & -> & Hin). apply elem_of_map_to_list in Hin. eauto.
  - intros [p Hp]. exists (u, p). split; [done |]. by apply elem_of_map_to_list.
Qed.

(** C5: in every reachable state no two live [SessionThread] objects
    belong to the same user.  For a user who has a session,
    [createSession] logs a warning and returns null without touching the
    registry or the heap, and [setupClientSession] attaches the socket to
    the existing session and creates none. *)
Theorem one_session_per_user s :
  reachable s ->
  NoDup (liveUsers s)
  /\ forall uid p restore socket,
       Core.sessions s !! uid = Some p ->
       (exists th, Core.heap s !! p = Some th /\ user th = uid)
       /\ (exists s',
             Core.createSession uid restore s = Core.Done None s'
             /\ Core.sessions s' = Core.sessions s
             /\ Core.heap s' = Core.heap s
             /\ Core.trace s' = Core.trace s ++
                  [Log WarningMsg
                     ["Calling createSession() when a session for the user already exists!"]])
       /\ (exists s',
             Core.setupClientSession socket uid s = Core.Done tt s'
             /\ Core.sessions s' = Core.sessions s
             /\ Core.heap s' = alter (addClient socket) p (Core.heap s)
             /\ liveUsers s' = liveUsers s).
Proof.
  intros Hwf%reachable_sessions_wf. split; [by apply sessions_wf_NoDup |].
  intros uid p restore socket Hp. split; [by apply Hwf |]. split.
  - eexists. split; [by apply createSession_existing |]. done.
  - destruct (setupClientSession_existing socket uid p s Hp) as (s' & Hrun & Hs & Hh & _).
    exists s'. split; [done |]. split; [done |]. split; [done |].
    unfold liveUsers. rewrite Hh. apply list_eq. intros i.
    rewrite !list_lookup_fmap. destruct (decide (p = i)) as [-> | Hne].
    + rewrite list_lookup_alter_eq. by destruct (Core.heap s !! i).
    + by rewrite list_lookup_alter_ne.
Qed.

(** C9: if [saveState] runs with some set of live sessions and
    [restoreState] runs on a configured core without sessions that reads
    the saved settings, the sessions it creates are exactly those of the
    saved users, one each.  [restoreState] changes nothing on an
    unconfigured core, and creates nothing when sessions exist. *)
Theorem coreState_roundtrip :
  (forall s s1 r,
      Core.saveState s = Core.Done tt s1 ->
      Core.settings r = Core.settings s1 ->
      Core.configured r = true ->
      Core.sessions r = ∅ ->
      Core.heap r = [] ->
      exists r',
        Core.restoreState r = Core.Done tt r'
        /\ liveUsers r' = keys (Core.sessions s)
        /\ NoDup (liveUsers r')
        /\ dom (Core.sessions r') = dom (Core.sessions s)
        /\ sessions_wf r')
  /\ (forall r, Core.configured r = false -> Core.restoreState r = Core.Done tt r)
  /\ (forall r, Core.configured r = true -> Core.sessions r <> ∅ ->
                exists r', Core.restoreState r = Core.Done tt r'
                           /\ Core.sessions r' = Core.sessions r
                           /\ Core.heap r' = Core.heap r).
Proof.
  split; [| split].
  - intros s s1 r Hsave Hset Hconf Hnone Hheap.
    injection Hsave as <-. simpl in Hset.
    assert (Hwf : sessions_wf r).
    { split; [intros u p; by rewrite Hnone, lookup_empty | intros p th; by rewrite Hheap, lookup_nil]. }
    destruct (restore_loop (keys (Core.sessions s)) r) as (r' & Hrun & Hh & Hdom & Hwf' & _).
    { apply NoDup_fst_map_to_list. }
    { intros u _. by rewrite Hnone, lookup_empty. }
    { done. }
    unfold Core.restoreState. unfold Core.bind at 1. unfold Core.get.
    rewrite Hconf, Hnone, map_size_empty, Hset. simpl.
    unfold value. rewrite lookup_insert_eq. simpl. rewrite length_fmap.
    destruct (keys (Core.sessions s)) as [| u l] eqn:Hkeys.
    + exists r. simpl. split; [done |]. unfold liveUsers. rewrite Hheap. simpl.
      split; [done |]. split; [constructor |]. split; [| done].
      rewrite Hnone, dom_empty_L, <- keys_dom, Hkeys. done.
    + change (0 <? length (u :: l))%nat with true. cbv iota.
      unfold Core.bind at 1. unfold Core.quInfo, Core.emit, Core.modify.
      destruct (restore_loop (u :: l)
                  (Core.set_trace (Core.trace r ++ [Log InfoMsg ["Restoring previous core state..."]]) r))
        as (r2 & Hrun2 & Hh2 & Hdom2 & Hwf2 & _).
      { rewrite <- Hkeys. apply NoDup_fst_map_to_list. }
      { intros v _. simpl. by rewrite Hnone, lookup_empty. }
      { done. }
      exists r2. split; [exact Hrun2 |].
      assert (Hlive : liveUsers r2 = u :: l).
      { unfold liveUsers. rewrite Hh2. simpl. rewrite Hheap. simpl.
        f_equal. rewrite <- list_fmap_compose. apply list_fmap_id. }
      split; [done |]. split; [by apply sessions_wf_NoDup |]. split; [| done].
      rewrite Hdom2. simpl. rewrite Hnone, dom_empty_L, <- keys_dom, Hkeys. set_solver.
  - intros r Hconf. unfold Core.restoreState. unfold Core.bind, Core.get. by rewrite Hconf.
  - intros r Hconf Hsome. unfold Core.restoreState. unfold Core.bind, Core.get. rewrite Hconf. simpl.
    destruct (size (Core.sessions r) =? 0)%nat eqn:Hsize.
    + apply Nat.eqb_eq, map_size_empty_iff in Hsize. done.
    + simpl. eexists. split; [reflexivity |]. done.
Qed.

End SessionRestore.

(** ** Storage setup *)

Section StorageSetup.
Context {B W Srv : Type} `{EqDecision B}.
Context `{!Storage.Iface B W} `{!Server.Iface Srv} `{!Globals}.
Implicit Types (s : Core.t B W Srv) (dbSettings : QVariantMap).

Lemma ensures_ret {A} (a : A) s Q : Q a s -> ensures (Core.ret a) s Q.
Proof. done. Qed.

Lemma ensures_abort {A} f s (Q : A -> _ -> Prop) : ensures (Core.abort f) s Q.
Proof. done. Qed.

Lemma ensures_get s Q : Q s s -> ensures Core.get s Q.
Proof. done. Qed.

Lemma ensures_modify f s Q : Q tt (f s) -> ensures (Core.modify f) s Q.
Proof. done. Qed.

Lemma ensures_emit e s Q :
  Q tt (Core.set_trace (Core.trace s ++ [e]) s) -> ensures (Core.emit e) s Q.
Proof. done. Qed.

Lemma ensures_bind {A C} (m : Core.M B W Srv A) (k : A -> Core.M B W Srv C) s Q :
  ensures m s (fun a s' => ensures (k a) s' Q) -> ensures (Core.bind m k) s Q.
Proof. unfold ensures, Core.bind. by destruct (m s). Qed.

Lemma ensures_mono {A} (m : Core.M B W Srv A) s (Q Q' : A -> _ -> Prop) :
  ensures m s Q -> (forall a s', Q a s' -> Q' a s') -> ensures m s Q'.
Proof. unfold ensures. destruct (m s); auto. Qed.

Lemma ensures_viaStorage {A} (f : B -> W -> A * W) s Q :
  (forall b, Core.storage s = Some b ->
             Q (f b (Core.db s)).1 (Core.set_db (f b (Core.db s)).2 s)) ->
  ensures (Core.viaStorage f) s Q.
Proof. unfold ensures, Core.viaStorage. destruct (Core.storage s); auto. Qed.

Lemma ensures_foreach {A} (Inv : Core.t B W Srv -> Prop) (l : list A) body Q :
  (forall x s', Inv s' -> ensures (body x) s' (fun _ => Inv)) ->
  (forall s', Inv s' -> Q tt s') ->
  forall s, Inv s -> ensures (Core.foreach l body) s Q.
Proof.
  intros Hbody HQ. induction l as [| x l IH]; intros s0 Hs0.
  - simpl. by apply ensures_ret, HQ.
  - simpl. apply ensures_bind. apply (ensures_mono _ _ (fun _ => Inv)).
    + by apply Hbody.
    + intros a s1 Hs1. by apply IH.
Qed.

Lemma ensures_Done {A} (m : Core.M B W Srv A) s Q a s' :
  ensures m s Q -> m s = Core.Done a s' -> Q a s'.
Proof. unfold ensures. intros Hq Hm. by rewrite Hm in Hq. Qed.

Ltac wp1 :=
  cbv beta zeta;
  lazymatch goal with
  | |- ensures (Core.bind _ _) _ _ => apply ensures_bind
  | |- ensures (Core.ret _) _ _ => apply ensures_ret
  | |- ensures Core.get _ _ => apply ensures_get
  | |- ensures (Core.abort _) _ _ => apply ensures_abort
  | |- ensures (Core.modify _) _ _ => apply ensures_modify
  | |- ensures (Core.emit _) _ _ => apply ensures_emit
  | |- ensures (Core.quDebug _) _ _ => apply ensures_emit
  | |- ensures (Core.quInfo _) _ _ => apply ensures_emit
  | |- ensures (Core.quWarning _) _ _ => apply ensures_emit
  | |- ensures (Core.quError _) _ _ => apply ensures_emit
  | |- ensures (Core.viaStorage _) _ _ => apply ensures_viaStorage; intros ? ?
  | |- ensures (if ?c then _ else _) _ _ => destruct c eqn:?
  | |- ensures (match ?x with _ => _ end) _ _ => destruct x eqn:?
  end.
Ltac wp := repeat wp1.

Lemma set_trace_set_trace t1 t2 s :
  Core.set_trace t2 (Core.set_trace t1 s) = Core.set_trace t2 s.
Proof. by destruct s. Qed.

Lemma set_trace_id s : Core.set_trace (Core.trace s) s = s.
Proof. by destruct s. Qed.

Lemma discarded_app (t1 t2 : list (Effect B)) :
  discarded (t1 ++ t2) = discarded t1 ++ discarded t2.
Proof. apply omap_app. Qed.

(** The loop of [initStorage] that discards the backends other than the
    chosen one [b] only adds [BackendDeleteLater] effects, for backends of
    the list that are not [b]. *)
Lemma ensures_discard_others (l : list B) b :
  forall s (Q : unit -> Core.t B W Srv -> Prop),
    Core.storage s = Some b ->
    (forall tr, (forall e, e ∈ tr -> exists x, e = BackendDeleteLater x /\ x <> b /\ x ∈ l) ->
                Q tt (Core.set_trace (Core.trace s ++ tr) s)) ->
    ensures (Core.foreach l (fun x : B =>
      Core.bind Core.get (fun s' =>
        if bool_decide (Some x = Core.storage s') then Core.ret tt
        else Core.emit (BackendDeleteLater x)))) s Q.
Proof.
  induction l as [| x l IH]; intros s Q Hb HQ.
  - simpl. apply ensures_ret. specialize (HQ []). rewrite app_nil_r, set_trace_id in HQ.
    apply HQ. intros e He. by apply elem_of_nil in He.
  - simpl. apply ensures_bind, ensures_bind, ensures_get.
    destruct (bool_decide (Some x = Core.storage s)) eqn:Hx.
    + apply ensures_ret. apply IH; [done |]. intros tr Htr. apply HQ.
      intros e He. destruct (Htr e He) as (y & -> & Hy & Hl). exists y. set_solver.
    + apply ensures_emit. apply IH; [done |]. intros tr Htr. simpl.
      rewrite set_trace_set_trace, <- app_assoc. apply HQ.
      intros e [-> | He]%elem_of_cons.
      * exists x. apply bool_decide_eq_false in Hx. rewrite Hb in Hx.
        split; [done |]. split; [congruence | set_solver].
      * destruct (Htr e He) as (y & -> & Hy & Hl). exists y. set_solver.
Qed.

Lemma discarded_only_deleted (tr : list (Effect B)) (b : B) (l : list B) (x : B) :
  (forall e, e ∈ tr -> exists y, e = BackendDeleteLater y /\ y <> b /\ y ∈ l) ->
  x ∈ discarded tr -> x <> b /\ x ∈ l.
Proof.
  intros Htr. unfold discarded. rewrite list_elem_of_omap. intros (e & He & Hx).
  destruct (Htr e He) as (y & -> & Hy & Hl). by injection Hx as <-.
Qed.

(** What [initStorage] leaves behind, by its result. *)
Lemma ensures_initStorage dbSettings setup s :
  ensures (Core.initStorage dbSettings setup) s (fun ok s1 =>
    Core.configured s1 = ok
    /\ Core.sessions s1 = Core.sessions s /\ Core.heap s1 = Core.heap s
    /\ Core.blocksizes s1 = Core.blocksizes s /\ Core.clientInfo s1 = Core.clientInfo s
    /\ Core.server s1 = Core.server s /\ Core.settings s1 = Core.settings s
    /\ if ok then
         exists b, Core._storageBackends s !! toString (value dbSettings "Backend") = Some b
                   /\ isEmpty (toString (value dbSettings "Backend")) = false
                   /\ Core.storage s1 = Some b
                   /\ Core._storageBackends s1 = ∅
                   /\ forall x, x ∈ discarded (Core.trace s1) ->
                                x ∈ discarded (Core.trace s) \/
                                (x <> b /\ x ∈ values (Core._storageBackends s))
       else
         Core._storageBackends s1 = Core._storageBackends s
         /\ discarded (Core.trace s1) = discarded (Core.trace s)
         /\ (Core.storage s1 = Core.storage s \/ Core.storage s1 = None)).
Proof.
  unfold Core.initStorage. wp.
  all: try (simpl; rewrite ?discarded_app, ?app_nil_r; by auto 12).
  all: apply (ensures_discard_others _ b); [done |]; intros tr Htr; wp;
    try (simpl in *; discriminate).
  all: simpl; repeat (split; [done |]); exists b; repeat (split; [done |]).
  all: intros x; rewrite !discarded_app; simpl; rewrite app_nil_r, elem_of_app.
  all: intros [Hx | Hx]; [by left | right; by eapply discarded_only_deleted].
Qed.

(** The two early returns of [initStorage]. *)
Lemma initStorage_no_backend dbSettings setup s :
  isEmpty (toString (value dbSettings "Backend")) = true ->
  Core.initStorage dbSettings setup s = Core.Done false (Core.set_configured false s).
Proof. intros Hname. unfold Core.initStorage. by rewrite Hname. Qed.

Lemma initStorage_unknown_backend dbSettings setup s :
  isEmpty (toString (value dbSettings "Backend")) = false ->
  Core._storageBackends s !! toString (value dbSettings "Backend") = None ->
  Core.initStorage dbSettings setup s =
    Core.Done false
      (Core.set_configured false
         (Core.set_trace
            (Core.trace s ++
               [Log ErrorMsg ["Selected storage backend is not available:";
                              toString (value dbSettings "Backend")]]) s)).
Proof.
  intros Hname Hnone. unfold Core.initStorage. rewrite Hname.
  unfold Core.bind at 1. unfold Core.get. by rewrite Hnone.
Qed.

(** C4, as amended: after a first [initStorage] call has succeeded, a
    second call with the same settings returns false, because the first
    call emptied the registry of candidates; the active backend is still
    the one the first call committed, no backend is scheduled for deletion
    by the second call, and sessions and store are untouched. *)
Theorem initStorage_retry_fails dbSettings setup setup' s s1 :
  Core.initStorage dbSettings setup s = Core.Done true s1 ->
  exists b s2,
    Core.storage s1 = Some b
    /\ Core.initStorage dbSettings setup' s1 = Core.Done false s2
    /\ Core.storage s2 = Some b
    /\ discarded (Core.trace s2) = discarded (Core.trace s1)
    /\ Core._storageBackends s2 = ∅
    /\ Core.sessions s2 = Core.sessions s1
    /\ Core.heap s2 = Core.heap s1
    /\ Core.db s2 = Core.db s1.
Proof.
  intros Hfirst.
  pose proof (ensures_Done _ _ _ _ _ (ensures_initStorage dbSettings setup s) Hfirst)
    as (_ & _ & _ & _ & _ & _ & _ & b & _ & Hname & Hb & Hreg & _).
  exists b. eexists. split; [done |].
  split; [apply initStorage_unknown_backend; [done | by rewrite Hreg, lookup_empty] |].
  simpl. rewrite discarded_app, app_nil_r. done.
Qed.

End StorageSetup.

(** ** Member functions that always return *)

Section Finishes.
Context {B W Srv : Type}.
Implicit Types (s : Core.t B W Srv).

Lemma finishes_ret {A} (a : A) s Q : Q a s -> finishes (Core.ret a) s Q.
Proof. done. Qed.

Lemma finishes_get s Q : Q s s -> finishes Core.get s Q.
Proof. done. Qed.

Lemma finishes_modify f s Q : Q tt (f s) -> finishes (Core.modify f) s Q.
Proof. done. Qed.

Lemma finishes_emit e s Q :
  Q tt (Core.set_trace (Core.trace s ++ [e]) s) -> finishes (Core.emit e) s Q.
Proof. done. Qed.

Lemma finishes_bind {A C} (m : Core.M B W Srv A) (k : A -> Core.M B W Srv C) s Q :
  finishes m s (fun a s' => finishes (k a) s' Q) -> finishes (Core.bind m k) s Q.
Proof. unfold finishes, Core.bind. by destruct (m s). Qed.

Lemma finishes_mono {A} (m : Core.M B W Srv A) s (Q Q' : A -> _ -> Prop) :
  finishes m s Q -> (forall a s', Q a s' -> Q' a s') -> finishes m s Q'.
Proof. unfold finishes. destruct (m s); auto. Qed.

Lemma finishes_viaStorage {A} (f : B -> W -> A * W) s b Q :
  Core.storage s = Some b ->
  Q (f b (Core.db s)).1 (Core.set_db (f b (Core.db s)).2 s) ->
  finishes (Core.viaStorage f) s Q.
Proof. unfold finishes, Core.viaStorage. by intros ->. Qed.

Lemma finishes_viaSession p f s Q :
  Q tt (Core.set_heap (alter f p (Core.heap s)) s) ->
  finishes (Core.viaSession (Some p) f) s Q.
Proof. done. Qed.

Lemma finishes_foreach {A} (Inv : Core.t B W Srv -> Prop) (l : list A) body Q :
  (forall x s', Inv s' -> finishes (body x) s' (fun _ => Inv)) ->
  (forall s', Inv s' -> Q tt s') ->
  forall s, Inv s -> finishes (Core.foreach l body) s Q.
Proof.
  intros Hbody HQ. induction l as [| x l IH]; intros s0 Hs0.
  - simpl. by apply finishes_ret, HQ.
  - simpl. apply finishes_bind. apply (finishes_mono _ _ (fun _ => Inv)).
    + by apply Hbody.
    + intros a s1 Hs1. by apply IH.
Qed.

Lemma finishes_Done {A} (m : Core.M B W Srv A) s Q :
  finishes m s Q <-> exists a s', m s = Core.Done a s' /\ Q a s'.
Proof.
  unfold finishes. split.
  - destruct (m s) as [a s' | f s']; [eauto | done].
  - by intros (a & s' & -> & HQ).
Qed.

Lemma finishes_ensures `{EqDecision B} `{!Storage.Iface B W} `{!Server.Iface Srv} `{!Globals}
  {A} (m : Core.M B W Srv A) s Q : finishes m s Q -> ensures m s Q.
Proof. unfold finishes, ensures. by destruct (m s). Qed.

End Finishes.

Ltac fin1 :=
  cbv beta zeta;
  lazymatch goal with
  | |- finishes (Core.bind _ _) _ _ => apply finishes_bind
  | |- finishes (Core.ret _) _ _ => apply finishes_ret
  | |- finishes Core.get _ _ => apply finishes_get
  | |- finishes (Core.modify _) _ _ => apply finishes_modify
  | |- finishes (Core.emit _) _ _ => apply finishes_emit
  | |- finishes (Core.quDebug _) _ _ => apply finishes_emit
  | |- finishes (Core.quInfo _) _ _ => apply finishes_emit
  | |- finishes (Core.quWarning _) _ _ => apply finishes_emit
  | |- finishes (Core.quError _) _ _ => apply finishes_emit
  | |- finishes (Core.viaStorage _) _ _ =>
      eapply finishes_viaStorage; [first [reflexivity | eassumption] |]
  | |- finishes (Core.viaSession (Some _) _) _ _ => apply finishes_viaSession
  | |- finishes (if ?c then _ else _) _ _ => destruct c eqn:?
  | |- finishes (match ?x with _ => _ end) _ _ => destruct x eqn:?
  end.
Ltac fin := repeat fin1.

Section StorageSetupTotal.
Context {B W Srv : Type} `{EqDecision B}.
Context `{!Storage.Iface B W} `{!Server.Iface Srv} `{!Globals}.
Implicit Types (s : Core.t B W Srv) (dbSettings : QVariantMap).

Lemma finishes_discard_others (l : list B) b :
  forall s (Q : unit -> Core.t B W Srv -> Prop),
    Core.storage s = Some b ->
    (forall tr, (forall e, e ∈ tr -> exists x, e = BackendDeleteLater x /\ x <> b /\ x ∈ l) ->
                Q tt (Core.set_trace (Core.trace s ++ tr) s)) ->
    finishes (Core.foreach l (fun x : B =>
      Core.bind Core.get (fun s' =>
        if bool_decide (Some x = Core.storage s') then Core.ret tt
        else Core.emit (BackendDeleteLater x)))) s Q.
Proof.
  induction l as [| x l IH]; intros s Q Hb HQ.
  - simpl. apply finishes_ret. specialize (HQ []). rewrite app_nil_r, set_trace_id in HQ.
    apply HQ. intros e He. by apply elem_of_nil in He.
  - simpl. apply finishes_bind, finishes_bind, finishes_get.
    destruct (bool_decide (Some x = Core.storage s)) eqn:Hx.
    + apply finishes_ret. apply IH; [done |]. intros tr Htr. apply HQ.
      intros e He. destruct (Htr e He) as (y & -> & Hy & Hl). exists y. set_solver.
    + apply finishes_emit. apply IH; [done |]. intros tr Htr. simpl.
      rewrite set_trace_set_trace, <- app_assoc. apply HQ.
      intros e [-> | He]%elem_of_cons.
      * exists x. apply bool_decide_eq_false in Hx. rewrite Hb in Hx.
        split; [done |]. split; [congruence | set_solver].
      * destruct (Htr e He) as (y & -> & Hy & Hl). exists y. set_solver.
Qed.

Theorem initStorage_returns dbSettings setup s :
  exists ok s1 tr,
    Core.initStorage dbSettings setup s = Core.Done ok s1
    /\ Core.configured s1 = ok
    /\ Core.trace s1 = (Core.trace s ++ tr)
    /\ Core.sessions s1 = Core.sessions s /\ Core.heap s1 = Core.heap s
    /\ Core.blocksizes s1 = Core.blocksizes s /\ Core.clientInfo s1 = Core.clientInfo s
    /\ Core.server s1 = Core.server s /\ Core.settings s1 = Core.settings s
    /\ if ok then
         exists b, Core._storageBackends s !! toString (value dbSettings "Backend") = Some b
                   /\ Core.storage s1 = Some b
                   /\ Core._storageBackends s1 = ∅
                   /\ (b ∉ discarded tr)
                   /\ forall x, x ∈ discarded tr -> x ∈ values (Core._storageBackends s)
       else
         Core._storageBackends s1 = Core._storageBackends s
         /\ discarded tr = []
         /\ (Core.storage s1 = Core.storage s \/ Core.storage s1 = None).
Proof.
  cut (finishes (Core.initStorage dbSettings setup) s (fun ok s1 =>
         exists tr, (Core.configured s1 = ok)
    /\ Core.trace s1 = (Core.trace s ++ tr)
    /\ Core.sessions s1 = Core.sessions s /\ Core.heap s1 = Core.heap s
    /\ Core.blocksizes s1 = Core.blocksizes s /\ Core.clientInfo s1 = Core.clientInfo s
    /\ Core.server s1 = Core.server s /\ Core.settings s1 = Core.settings s
    /\ if ok then
         exists b, Core._storageBackends s !! toString (value dbSettings "Backend") = Some b
                   /\ Core.storage s1 = Some b
                   /\ Core._storageBackends s1 = ∅
                   /\ (b ∉ discarded tr)
                   /\ forall x, x ∈ discarded tr -> x ∈ values (Core._storageBackends s)
       else
         Core._storageBackends s1 = Core._storageBackends s
         /\ discarded tr = []
         /\ (Core.storage s1 = Core.storage s \/ Core.storage s1 = None))).
  { intros (ok & s1 & Hrun & tr & Hrest)%finishes_Done. by exists ok, s1, tr. }
  unfold Core.initStorage. fin.
  - exists (@nil (Effect B)). simpl. rewrite (app_nil_r (Core.trace s)). by auto 12.
  - apply (finishes_discard_others _ b); [done |]; intros tr Htr; fin;
      simpl in *; simplify_eq.
    eexists (tr ++ [ConnectBufferInfoUpdated _]). simpl. rewrite app_assoc.
    repeat (split; [done |]). eexists. repeat (split; [done |]).
    rewrite discarded_app. simpl. rewrite app_nil_r. split.
    + intros Hx. by destruct (discarded_only_deleted _ _ _ _ Htr Hx).
    + intros x Hx. by destruct (discarded_only_deleted _ _ _ _ Htr Hx).
  - eexists (cons _ nil). simpl. by auto 12.
  - eexists (cons _ nil). simpl. by auto 12.
  - apply (finishes_discard_others _ b); [done |]; intros tr Htr; fin;
      simpl in *; simplify_eq.
    eexists (tr ++ [ConnectBufferInfoUpdated _]). simpl. rewrite app_assoc.
    repeat (split; [done |]). eexists. repeat (split; [done |]).
    rewrite discarded_app. simpl. rewrite app_nil_r. split.
    + intros Hx. by destruct (discarded_only_deleted _ _ _ _ Htr Hx).
    + intros x Hx. by destruct (discarded_only_deleted _ _ _ _ Htr Hx).
  - eexists (cons _ nil). simpl. by auto 12.
  - eexists (cons _ nil). simpl. by auto 12.
Qed.

End StorageSetupTotal.

Section StorageInvariant.
Context {B W Srv : Type} `{EqDecision B}.
Context `{!Storage.Iface B W} `{!Server.Iface Srv} `{!Globals}.
Implicit Types (s : Core.t B W Srv) (dbSettings : QVariantMap).

Variable I : Core.t B W Srv -> Prop.
Hypothesis I_only : storage_only I.
Hypothesis I_initStorage : forall dbSettings setup, preserves I (Core.initStorage dbSettings setup).

Ltac hold1 :=
  cbv beta zeta;
  lazymatch goal with
  | |- @preserves _ _ _ _ _ (Core.ret _) => apply preserves_ret
  | |- @preserves _ _ _ _ _ Core.get => apply preserves_get
  | |- @preserves _ _ _ _ _ (Core.abort _) => apply preserves_abort
  | |- @preserves _ _ _ _ _ (Core.initStorage _ _) => apply I_initStorage
  | |- @preserves _ _ _ _ _ (Core.emit _) => apply preserves_modify; intros ?; by apply I_only
  | |- @preserves _ _ _ _ _ (Core.quDebug _) => apply preserves_modify; intros ?; by apply I_only
  | |- @preserves _ _ _ _ _ (Core.quInfo _) => apply preserves_modify; intros ?; by apply I_only
  | |- @preserves _ _ _ _ _ (Core.quWarning _) => apply preserves_modify; intros ?; by apply I_only
  | |- @preserves _ _ _ _ _ (Core.quError _) => apply preserves_modify; intros ?; by apply I_only
  | |- @preserves _ _ _ _ _ (Core.viaSession ?x _) =>
      destruct x; [apply preserves_modify; intros ?; by apply I_only | apply preserves_abort]
  | |- @preserves _ _ _ _ _ (Core.modify _) => apply preserves_modify; intros ?; by apply I_only
  | |- @preserves _ _ _ _ _ (Core.foreach _ _) => apply preserves_foreach; intros ?
  | |- @preserves _ _ _ _ _ (Core.bind _ _) => apply preserves_bind; [| intros ?]
  | |- @preserves _ _ _ _ _ (if ?c then _ else _) => destruct c
  | |- @preserves _ _ _ _ _ (match ?x with _ => _ end) => destruct x
  end.
Ltac hold := repeat hold1.

Lemma holds_viaStorage {A} (f : B -> W -> A * W) : preserves I (Core.viaStorage f).
Proof.
  intros s Hs. unfold Core.viaStorage. destruct (Core.storage s); [| done].
  revert Hs. by apply I_only.
Qed.

Lemma holds_startListening port : preserves I (Core.startListening port).
Proof. unfold Core.startListening. hold. Qed.

Lemma holds_createSession uid restore : preserves I (Core.createSession uid restore).
Proof. unfold Core.createSession. hold. Qed.

Lemma holds_setupClientSession socket uid : preserves I (Core.setupClientSession socket uid).
Proof. unfold Core.setupClientSession. hold. apply holds_createSession. Qed.

Lemma holds_setupCore setupData : preserves I (Core.setupCore setupData).
Proof.
  unfold Core.setupCore. hold.
  - apply holds_viaStorage.
  - apply holds_startListening.
Qed.

Lemma holds_processClientMessage uptime socket msg :
  preserves I (Core.processClientMessage uptime socket msg).
Proof.
  unfold Core.processClientMessage. hold.
  all: lazymatch goal with
       | |- @preserves _ _ _ _ _ (Core.setupCore _) => apply holds_setupCore
       | |- @preserves _ _ _ _ _ (Core.setupClientSession _ _) => apply holds_setupClientSession
       | |- @preserves _ _ _ _ _ (Core.viaStorage _) => apply holds_viaStorage
       end.
Qed.

Lemma holds_clientHasData uptime socket items :
  preserves I (Core.clientHasData uptime socket items).
Proof.
  unfold Core.clientHasData. hold.
  induction items as [| item rest IH]; simpl; hold.
  all: lazymatch goal with
       | |- @preserves _ _ _ _ _ (Core.processClientMessage _ _ _) => apply holds_processClientMessage
       | |- _ => apply IH
       end.
Qed.

Lemma holds_call c : preserves I (call c).
Proof.
  destruct c; simpl.
  - unfold Core.incomingConnection. hold.
  - apply holds_clientHasData.
  - unfold Core.clientDisconnected. hold; apply holds_startListening.
  - unfold Core.syncStorage. hold. apply holds_viaStorage.
  - unfold Core.saveState. hold.
  - unfold Core.restoreState. hold. apply holds_createSession.
Qed.

End StorageInvariant.

Section StorageInvariantReachable.
Context {B W Srv : Type} `{EqDecision B}.
Context `{!Storage.Iface B W} `{!Server.Iface Srv} `{!Globals}.
Implicit Types (s : Core.t B W Srv) (dbSettings : QVariantMap).

Lemma configured_has_storage_only : storage_only (@configured_has_storage B W Srv).
Proof. intros s s' Hs Hc. unfold configured_has_storage. by rewrite Hs, Hc. Qed.

Lemma initStorage_configured_has_storage dbSettings setup :
  preserves (@configured_has_storage B W Srv) (Core.initStorage dbSettings setup).
Proof.
  intros s _.
  destruct (initStorage_returns dbSettings setup s) as (ok & s1 & tr & -> & Hc & _ & _ & _ & _ & _ & _ & _ & Hok).
  intros Hconf. rewrite Hconf in Hc. subst ok.
  destruct Hok as (b & _ & -> & _). eauto.
Qed.

Lemma storage_iff_configured_only : storage_only (@storage_iff_configured B W Srv).
Proof. intros s s' Hs Hc. unfold storage_iff_configured. by rewrite Hs, Hc. Qed.

(** From a state without active backend, [initStorage] returns in a state
    where the active backend is non-null exactly if it succeeded. *)
Lemma ensures_initStorage_from_null dbSettings setup s (Q : bool -> Core.t B W Srv -> Prop) :
  Core.storage s = None ->
  (forall ok s1, Core.configured s1 = ok ->
                 (is_Some (Core.storage s1) <-> ok = true) ->
                 Core.settings s1 = Core.settings s ->
                 Q ok s1) ->
  ensures (Core.initStorage dbSettings setup) s Q.
Proof.
  intros Hnull HQ.
  destruct (initStorage_returns dbSettings setup s)
    as (ok & s1 & tr & Hrun & Hc & _ & _ & _ & _ & _ & _ & Hset & Hok).
  unfold ensures. rewrite Hrun. apply HQ; [done | | done].
  destruct ok.
  - destruct Hok as (b & _ & -> & _). split; eauto.
  - destruct Hok as (_ & _ & [-> | ->]); rewrite ?Hnull; split; [by intros [? ?] | done | by intros [? ?] | done].
Qed.

Lemma preserves_ensures (I : Core.t B W Srv -> Prop) {A} (m : Core.M B W Srv A) s :
  preserves I m -> I s -> ensures m s (fun _ => I).
Proof. intros Hm Hs. exact (Hm s Hs). Qed.

Ltac ens1 :=
  cbv beta zeta;
  lazymatch goal with
  | |- ensures (Core.bind _ _) _ _ => apply ensures_bind
  | |- ensures (Core.ret _) _ _ => apply ensures_ret
  | |- ensures Core.get _ _ => apply ensures_get
  | |- ensures (Core.abort _) _ _ => apply ensures_abort
  | |- ensures (Core.modify _) _ _ => apply ensures_modify
  | |- ensures (Core.emit _) _ _ => apply ensures_emit
  | |- ensures (Core.quDebug _) _ _ => apply ensures_emit
  | |- ensures (Core.quInfo _) _ _ => apply ensures_emit
  | |- ensures (Core.quWarning _) _ _ => apply ensures_emit
  | |- ensures (Core.quError _) _ _ => apply ensures_emit
  | |- ensures (if ?c then _ else _) _ _ => destruct c eqn:?
  | |- ensures (match ?x with _ => _ end) _ _ => destruct x eqn:?
  end.
Ltac ens := repeat ens1.

Lemma ensures_listen_or_exit port s :
  storage_iff_configured s ->
  ensures (Core.startListening port) s
    (fun listening s' =>
       ensures (if negb listening then Core.abort (Exit 1) else Core.ret tt) s'
         (fun _ s'' => storage_iff_configured s'')).
Proof.
  intros Hs.
  eapply ensures_mono.
  - apply (preserves_ensures storage_iff_configured); [| exact Hs].
    apply holds_startListening. apply storage_iff_configured_only.
  - intros listening s' Hs'. simpl. ens. exact Hs'.
Qed.

(** Right after start-up the storage invariant of the specification
    holds. *)
Theorem instance_storage_iff_configured sqlite s0 s :
  Core.instance sqlite s0 = Core.Done tt s -> storage_iff_configured s.
Proof.
  apply (ensures_Done (Core.instance sqlite) s0 (fun _ s => storage_iff_configured s)).
  unfold Core.instance, Core.Core, Core.registerStorageBackend, Core.init.
  ens.
  all: apply ensures_initStorage_from_null; [reflexivity |]; intros ok s1 Hc Hiff Hset; ens.
  all: try (apply ensures_listen_or_exit; unfold storage_iff_configured; simpl; subst; by rewrite ?Hset).
  all: destruct ok;
    [lazymatch goal with Hb : negb true = true |- _ => by simpl in Hb end |].
  all: apply ensures_initStorage_from_null;
    [simpl; destruct (Core.storage s1) eqn:E; [destruct Hiff as [Hiff _]; by specialize (Hiff ltac:(eauto)) | done] |].
  all: intros ok' s2 Hc' Hiff' Hset'; ens.
  all: apply ensures_listen_or_exit; unfold storage_iff_configured; simpl; subst; by rewrite ?Hset.
Qed.

End StorageInvariantReachable.

(** ** Connections, setup and hand-off *)

Section Connections.
Context {B W Srv : Type} `{EqDecision B}.
Context `{!Storage.Iface B W} `{!Server.Iface Srv} `{!Globals}.
Implicit Types (s : Core.t B W Srv) (msg : QVariantMap) (socket : Socket) (uid : UserId).

(** X3: In every reachable state a configured core has an active backend. *)
Theorem reachable_configured_has_storage s : reachable s -> configured_has_storage s.
Proof.
  intros Hreach.
  induction Hreach as [sqlite srv w cs s Hs | c s s' _ IH Hs | s w _ IH _].
  - apply instance_storage_iff_configured in Hs as [_ Hs]. exact Hs.
  - pose proof (holds_call configured_has_storage configured_has_storage_only
                  initStorage_configured_has_storage c s IH) as Hp.
    by rewrite Hs in Hp.
  - exact IH.
Qed.

Lemma startListening_returns port s :
  exists ok s',
    Core.startListening port s = Core.Done ok s'
    /\ Core.storage s' = Core.storage s /\ Core.configured s' = Core.configured s
    /\ Core._storageBackends s' = Core._storageBackends s
    /\ Core.sessions s' = Core.sessions s /\ Core.heap s' = Core.heap s
    /\ Core.blocksizes s' = Core.blocksizes s /\ Core.clientInfo s' = Core.clientInfo s
    /\ Core.db s' = Core.db s /\ Core.settings s' = Core.settings s
    /\ (ok = true <->
        (Server.listen Server.AnyIPv6 port (Core.server s)).1 = true
        \/ (Server.unsupportedSocketOperation (Server.listen Server.AnyIPv6 port (Core.server s)).2 = true
            /\ (Server.listen Server.Any port (Server.listen Server.AnyIPv6 port (Core.server s)).2).1 = true)).
Proof.
  apply finishes_Done. unfold Core.startListening.
  apply finishes_bind, finishes_get. cbv beta zeta.
  destruct (Server.listen Server.AnyIPv6 port (Core.server s)) as [ok6 srv6] eqn:E6. simpl.
  destruct (Server.listen Server.Any port srv6) as [ok4 srv4] eqn:E4.
  destruct ok6, (Server.unsupportedSocketOperation srv6), ok4; simpl.
  all: fin; simpl in *; rewrite ?E4 in *; simpl in *; try discriminate.
  all: repeat (split; [done |]).
  all: intuition congruence.
Qed.

Lemma closed_app (socket : Socket) (t1 t2 : list (Effect B)) :
  closed socket (t1 ++ t2) = closed socket t1 || closed socket t2.
Proof. apply existsb_app. Qed.

Lemma written_app (socket : Socket) (t1 t2 : list (Effect B)) :
  written socket (t1 ++ t2) = written socket t1 ++ written socket t2.
Proof. apply omap_app. Qed.

Lemma setupClientSession_returns socket uid s :
  sessions_wf s ->
  exists s' p th,
    Core.setupClientSession socket uid s = Core.Done tt s'
    /\ Core.sessions s' !! uid = Some p
    /\ Core.heap s' !! p = Some th
    /\ user th = uid
    /\ socket ∈ clients th
    /\ Core.blocksizes s' = delete socket (Core.blocksizes s)
    /\ Core.clientInfo s' = delete socket (Core.clientInfo s)
    /\ closed socket (Core.trace s') = closed socket (Core.trace s)
    /\ written socket (Core.trace s') = written socket (Core.trace s)
    /\ sessions_wf s'
    /\ (forall u, u <> uid -> Core.sessions s' !! u = Core.sessions s !! u).
Proof.
  intros Hwf. destruct (Core.sessions s !! uid) as [p |] eqn:Hp.
  - destruct (proj1 Hwf uid p Hp) as (th & Hth & Hu).
    destruct (setupClientSession_existing socket uid p s Hp)
      as (s' & Hrun & Hs & Hh & Htr & Hbs & Hci).
    exists s', p, (addClient socket th).
    split; [done |]. rewrite Hs, Hh, Htr, closed_app, written_app. simpl.
    rewrite list_lookup_alter_eq, Hth, orb_false_r, app_nil_r. simpl.
    repeat (split; [first [done | set_solver] |]). split; [| done].
    pose proof (sessions_wf_alter (addClient socket) p s (fun _ => eq_refl) Hwf) as Hwf'.
    revert Hwf'. apply sessions_wf_sessions_only; by rewrite ?Hs, ?Hh.
  - pose proof (sessions_wf_new uid false s Hp Hwf) as Hwf1.
    unfold Core.setupClientSession. unfold Core.bind at 1. unfold Core.get.
    pose proof (proj2 (contains_false (Core.sessions s) uid) Hp) as ->.
    unfold Core.bind at 1. rewrite createSession_new by done.
    eexists _, (length (Core.heap s)), (addClient socket (MkSessionThread uid false true [])).
    split; [reflexivity |]. simpl.
    rewrite lookup_insert_eq, list_lookup_alter_eq, lookup_app_r, Nat.sub_diag by lia. simpl.
    rewrite closed_app, written_app, orb_false_r, app_nil_r. simpl.
    repeat (split; [first [done | set_solver] |]). split.
    + pose proof (sessions_wf_alter (addClient socket) (length (Core.heap s)) _
                    (fun _ => eq_refl) Hwf1) as Hwf2.
      revert Hwf2. by apply sessions_wf_sessions_only.
    + intros u Hu. by rewrite lookup_insert_ne.
Qed.

Lemma login_handoff uptime socket msg s b uid :
  msgKind msg = ClientLogin ->
  contains (Core.clientInfo s) socket = true ->
  Core.storage s = Some b ->
  (Storage.validateUser b (loginUser msg) (loginPassword msg) (Core.db s)).1 = uid ->
  uid <> 0%Z ->
  sessions_wf s ->
  exists s' p th,
    Core.processClientMessage uptime socket msg s = Core.Done tt s'
    /\ written socket (Core.trace s')
       = written socket (Core.trace s) ++ [<["MsgType" := QString "ClientLoginAck"]> ∅]
    /\ closed socket (Core.trace s') = closed socket (Core.trace s)
    /\ Core.sessions s' !! uid = Some p
    /\ Core.heap s' !! p = Some th /\ user th = uid /\ socket ∈ clients th
    /\ contains (Core.blocksizes s') socket = false
    /\ contains (Core.clientInfo s') socket = false
    /\ sessions_wf s'.
Proof.
  intros (Hc & Hi & Hs & Hl)%msgKind_ClientLogin Hinfo Hb Hv Huid Hwf.
  unfold Core.processClientMessage.
  rewrite Hc, Hi. simpl.
  unfold Core.bind at 1. unfold Core.get. rewrite Hinfo, Hs, Hl. simpl.
  unfold Core.bind at 1. unfold Core.viaStorage. rewrite Hb.
  unfold loginUser, loginPassword in Hv. rewrite Hv.
  apply Z.eqb_neq in Huid as ->.
  unfold Core.bind at 1. unfold Core.emit at 1. unfold Core.modify at 1.
  unfold Core.bind at 1. unfold Core.quInfo at 1. unfold Core.emit at 1. unfold Core.modify at 1.
  set (s1 := Core.set_trace _ (Core.set_trace _ _)).
  destruct (setupClientSession_returns socket uid s1)
    as (s' & p & th & Hrun & Hp & Hth & Hu & Hcl & Hbs & Hci & Hclosed & Hwritten & Hwf' & _).
  { revert Hwf. by apply sessions_wf_sessions_only. }
  exists s', p, th. split; [exact Hrun |].
  rewrite Hwritten, Hclosed. subst s1. simpl.
  rewrite !written_app, !closed_app. simpl. rewrite decide_True by done.
  rewrite !orb_false_r, !app_nil_r.
  repeat (split; [done |]).
  split; [apply contains_false; rewrite Hbs; apply lookup_delete_eq |].
  split; [apply contains_false; rewrite Hci; apply lookup_delete_eq | done].
Qed.

(** X6: A login with valid credentials on an initialised socket is
    acknowledged with a [ClientLoginAck], the socket is handed to the one
    session of the user and is no longer tracked by the core. *)
Theorem login_success uptime socket msg s b uid :
  msgKind msg = ClientLogin ->
  contains (Core.clientInfo s) socket = true ->
  Core.storage s = Some b ->
  (Storage.validateUser b (loginUser msg) (loginPassword msg) (Core.db s)).1 = uid ->
  uid <> 0%Z ->
  sessions_wf s ->
  exists s' p th,
    Core.processClientMessage uptime socket msg s = Core.Done tt s'
    /\ written socket (Core.trace s')
       = written socket (Core.trace s) ++ [<["MsgType" := QString "ClientLoginAck"]> ∅]
    /\ closed socket (Core.trace s') = closed socket (Core.trace s)
    /\ Core.sessions s' !! uid = Some p
    /\ Core.heap s' !! p = Some th /\ user th = uid /\ socket ∈ clients th
    /\ contains (Core.blocksizes s') socket = false
    /\ contains (Core.clientInfo s') socket = false
    /\ sessions_wf s'.
Proof. apply login_handoff. Qed.

(** X7: Frames that follow a successful login in the same batch are not
    processed by the core: the socket is no longer its to handle. *)
Theorem login_ends_batch uptime socket msg rest s b uid :
  msgKind msg = ClientLogin ->
  contains (Core.clientInfo s) socket = true ->
  contains (Core.blocksizes s) socket = true ->
  Core.storage s = Some b ->
  (Storage.validateUser b (loginUser msg) (loginPassword msg) (Core.db s)).1 = uid ->
  uid <> 0%Z ->
  sessions_wf s ->
  Core.clientHasData uptime socket (QVMap msg :: rest) s
  = Core.processClientMessage uptime socket msg s.
Proof.
  intros Hk Hinfo Hbs Hb Hv Huid Hwf.
  destruct (login_handoff uptime socket msg s b uid Hk Hinfo Hb Hv Huid Hwf)
    as (s' & p & th & Hrun & _ & _ & _ & _ & _ & _ & Hgone & _).
  unfold Core.clientHasData. unfold Core.bind at 1. unfold Core.get.
  rewrite Hbs, andb_false_r. simpl. unfold Core.bind at 1. rewrite Hrun.
  unfold Core.bind, Core.get. by rewrite Hgone.
Qed.


(** X9: A [ClientInit] of an acceptable version is acknowledged: the message
    is remembered for the socket, the socket stays open, and the reply
    tells whether the core is configured; an unconfigured core disables
    login and lists every registered backend. *)
Theorem clientInit_acknowledged uptime socket msg s :
  msgKind msg = ClientInit ->
  (coreNeedsProtocol <= Core.clientVersion msg)%N ->
  exists reply s',
    Core.processClientMessage uptime socket msg s = Core.Done tt s'
    /\ written socket (Core.trace s') = written socket (Core.trace s) ++ [reply]
    /\ closed socket (Core.trace s') = closed socket (Core.trace s)
    /\ Core.clientInfo s' = <[socket := msg]> (Core.clientInfo s)
    /\ reply !! "MsgType" = Some (QString "ClientInitAck")
    /\ reply !! "ProtocolVersion" = Some (QUInt protocolVersion)
    /\ reply !! "Configured" = Some (QBool (Core.configured s))
    /\ reply !! "LoginEnabled" = Some (QBool (Core.configured s))
    /\ reply !! "StorageBackends"
       = (if Core.configured s then None
          else Some (QVList (backendEntry <$> values (Core._storageBackends s))))
    /\ Core.storage s' = Core.storage s /\ Core.configured s' = Core.configured s
    /\ Core._storageBackends s' = Core._storageBackends s
    /\ Core.sessions s' = Core.sessions s /\ Core.heap s' = Core.heap s
    /\ Core.blocksizes s' = Core.blocksizes s
    /\ Core.db s' = Core.db s /\ Core.settings s' = Core.settings s
    /\ Core.server s' = Core.server s.
Proof.
  intros [Hc Hi]%msgKind_ClientInit Hver. apply N.ltb_ge in Hver.
  cut (finishes (Core.processClientMessage uptime socket msg) s (fun _ s' =>
    exists reply,
    written socket (Core.trace s') = written socket (Core.trace s) ++ [reply]
    /\ closed socket (Core.trace s') = closed socket (Core.trace s)
    /\ Core.clientInfo s' = <[socket := msg]> (Core.clientInfo s)
    /\ reply !! "MsgType" = Some (QString "ClientInitAck")
    /\ reply !! "ProtocolVersion" = Some (QUInt protocolVersion)
    /\ reply !! "Configured" = Some (QBool (Core.configured s))
    /\ reply !! "LoginEnabled" = Some (QBool (Core.configured s))
    /\ reply !! "StorageBackends"
       = (if Core.configured s then None
          else Some (QVList (backendEntry <$> values (Core._storageBackends s))))
    /\ Core.storage s' = Core.storage s /\ Core.configured s' = Core.configured s
    /\ Core._storageBackends s' = Core._storageBackends s
    /\ Core.sessions s' = Core.sessions s /\ Core.heap s' = Core.heap s
    /\ Core.blocksizes s' = Core.blocksizes s
    /\ Core.db s' = Core.db s /\ Core.settings s' = Core.settings s
    /\ Core.server s' = Core.server s)).
  { intros ([] & s' & Hrun & reply & Hrest)%finishes_Done. by exists reply, s'. }
  unfold Core.processClientMessage. rewrite Hc, Hi, Hver. simpl.
  apply finishes_bind, finishes_get. cbv beta zeta.
  destruct (Core.configured s) eqn:Hconf; simpl.
  all: fin; eexists; simpl.
  all: rewrite <- ?app_assoc, !written_app, !closed_app; simpl.
  all: rewrite ?decide_True by done; simpl; rewrite ?orb_false_r.
  all: (split; [reflexivity |]); (split; [reflexivity |]); (split; [reflexivity |]).
  all: repeat (split; [by simplify_map_eq |]).
  all: done.
Qed.

Lemma finishes_startListening port s (Q : bool -> Core.t B W Srv -> Prop) :
  (forall ok s',
      Core.storage s' = Core.storage s -> Core.configured s' = Core.configured s ->
      Core._storageBackends s' = Core._storageBackends s ->
      Core.sessions s' = Core.sessions s -> Core.heap s' = Core.heap s ->
      Core.blocksizes s' = Core.blocksizes s -> Core.clientInfo s' = Core.clientInfo s ->
      Core.db s' = Core.db s -> Core.settings s' = Core.settings s ->
      Q ok s') ->
  finishes (Core.startListening port) s Q.
Proof.
  intros HQ.
  destruct (startListening_returns port s)
    as (ok & s' & Hrun & ? & ? & ? & ? & ? & ? & ? & ? & ? & _).
  unfold finishes. rewrite Hrun. by apply HQ.
Qed.

Lemma finishes_initStorage dbSettings setup s (Q : bool -> Core.t B W Srv -> Prop) :
  (forall ok s1,
      Core.configured s1 = ok ->
      Core.sessions s1 = Core.sessions s -> Core.heap s1 = Core.heap s ->
      Core.blocksizes s1 = Core.blocksizes s -> Core.clientInfo s1 = Core.clientInfo s ->
      Core.server s1 = Core.server s -> Core.settings s1 = Core.settings s ->
      (ok = true -> exists b,
          Core._storageBackends s !! toString (value dbSettings "Backend") = Some b
          /\ Core.storage s1 = Some b) ->
      Q ok s1) ->
  finishes (Core.initStorage dbSettings setup) s Q.
Proof.
  intros HQ.
  destruct (initStorage_returns dbSettings setup s)
    as (ok & s1 & tr & Hrun & ? & ? & ? & ? & ? & ? & ? & ? & Hok).
  unfold finishes. rewrite Hrun. apply HQ; try done.
  intros ->. destruct Hok as (b & ? & ? & _). eauto.
Qed.

(** X10: [setupCore] always returns.  With an empty result the core is
    configured, the settings file holds the setup data without the
    administrator's name and password, and the administrator has been
    added through the active backend.  With an error message the
    settings file is as before; without both credentials nothing at all
    has happened. *)
Theorem setupCore_returns setupData s :
  exists result s',
    Core.setupCore setupData s = Core.Done result s'
    /\ Core.sessions s' = Core.sessions s /\ Core.heap s' = Core.heap s
    /\ Core.blocksizes s' = Core.blocksizes s /\ Core.clientInfo s' = Core.clientInfo s
    /\ if isEmpty result then
         Core.configured s' = true
         /\ (exists b, Core.storage s' = Some b
                       /\ Core._storageBackends s !! toString (value (backendSettings setupData) "Backend") = Some b)
         /\ storageSettings (Core.settings s') = QVMap (backendSettings setupData)
         /\ backendSettings setupData !! "AdminUser" = None
         /\ backendSettings setupData !! "AdminPasswd" = None
       else
         Core.settings s' = Core.settings s
         /\ Core.server s' = Core.server s
         /\ (isEmpty (toString (value (toMap setupData) "AdminUser"))
              || isEmpty (toString (value (toMap setupData) "AdminPasswd")) = true -> s' = s).
Proof.
  apply finishes_Done. unfold Core.setupCore. cbv beta zeta.
  assert (Hpw : value (delete "AdminUser" (toMap setupData)) "AdminPasswd"
                = value (toMap setupData) "AdminPasswd").
  { unfold value. by rewrite lookup_delete_ne. }
  rewrite Hpw.
  destruct (isEmpty (toString (value (toMap setupData) "AdminUser"))
            || isEmpty (toString (value (toMap setupData) "AdminPasswd"))) eqn:Hcred.
  - apply finishes_ret. simpl. by auto 10.
  - apply finishes_bind. fold (backendSettings setupData).
    apply finishes_initStorage.
    intros ok s1 Hc Hs Hh Hbs Hci Hsrv Hset Hok.
    destruct ok; simpl.
    + destruct (Hok eq_refl) as (b & Hreg & Hb).
      fin. apply finishes_startListening. simpl.
      intros l s2 Hst2 Hc2 _ Hs2 Hh2 Hbs2 Hci2 _ Hset2. fin.
      rewrite Hs2, Hh2, Hbs2, Hci2, Hc2, Hst2, Hset2. simpl.
      repeat (split; [done |]). split; [eauto |].
      unfold backendSettings. split; [done |].
      split; [by rewrite lookup_delete_ne, lookup_delete_eq | by rewrite lookup_delete_eq].
    + fin. simpl. repeat split; done.
Qed.



(** X13: The constructor registers the SQLite backend under its display name
    if it is available and ends the process with exit code 1 if it is
    not. *)
Theorem Core_constructor sqlite srv w cs :
  if Storage.isAvailable sqlite then
    exists s,
      Core.Core sqlite (Core.blank srv w cs) = Core.Done tt s
      /\ Core._storageBackends s = {[Storage.displayName sqlite := sqlite]}
      /\ Core.storage s = None
      /\ Core.sessions s = ∅ /\ Core.heap s = []
      /\ Core.trace s = [StartSyncTimer 600000]
  else
    exists s,
      Core.Core sqlite (Core.blank srv w cs) = Core.Abort (Exit 1) s
      /\ discarded (Core.trace s) = [sqlite].
Proof.
  unfold Core.Core, Core.registerStorageBackend.
  destruct (Storage.isAvailable sqlite) eqn:Hav.
  - unfold Core.bind, Core.modify, Core.get, Core.ret. simpl.
    rewrite map_size_insert_None by apply lookup_empty. rewrite map_size_empty. simpl.
    eexists. split; [reflexivity |]. simpl. by rewrite insert_empty.
  - unfold Core.bind, Core.modify, Core.get, Core.ret, Core.emit, Core.modify. simpl.
    rewrite map_size_empty. simpl. eexists. split; [reflexivity |]. done.
Qed.

(** X14: Every accepted socket is tracked with a frame-length counter of 0;
    the other sockets keep theirs. *)
Theorem incomingConnection_returns pending s :
  exists s',
    Core.incomingConnection pending s = Core.Done tt s'
    /\ (forall socket, socket ∈ pending -> Core.blocksizes s' !! socket = Some 0%N)
    /\ (forall socket, socket ∉ pending ->
                       Core.blocksizes s' !! socket = Core.blocksizes s !! socket)
    /\ Core.clientInfo s' = Core.clientInfo s
    /\ Core.storage s' = Core.storage s /\ Core.configured s' = Core.configured s
    /\ Core.sessions s' = Core.sessions s /\ Core.heap s' = Core.heap s
    /\ (Core.configured s = true -> Core.server s' = Core.server s).
Proof.
  cut (finishes (Core.incomingConnection pending) s (fun _ s' =>
    (forall socket, socket ∈ pending -> Core.blocksizes s' !! socket = Some 0%N)
    /\ (forall socket, socket ∉ pending ->
                       Core.blocksizes s' !! socket = Core.blocksizes s !! socket)
    /\ Core.clientInfo s' = Core.clientInfo s
    /\ Core.storage s' = Core.storage s /\ Core.configured s' = Core.configured s
    /\ Core.sessions s' = Core.sessions s /\ Core.heap s' = Core.heap s
    /\ (Core.configured s = true -> Core.server s' = Core.server s))).
  { intros ([] & s' & Hrun & Hrest)%finishes_Done. by exists s'. }
  revert s. unfold Core.incomingConnection.
  induction pending as [| x l IH]; intros s.
  - simpl. apply finishes_ret. repeat split; try done. intros so Hso. by apply elem_of_nil in Hso.
  - cbn [Core.foreach]. fin.
    all: eapply finishes_mono; [apply IH |]; simpl.
    all: intros _ s' (Hin & Hout & Hci & Hst & Hc & Hs & Hh & Hsrv).
    all: rewrite Hci, Hst, Hc, Hs, Hh.
    all: (split; [| split; [| repeat (split; [done |])]]).
    all: try (intros so Hso; destruct (decide (so ∈ l)) as [Hl | Hl];
              [by apply Hin | rewrite (Hout so Hl); simpl;
               apply elem_of_cons in Hso as [-> | ?]; [apply lookup_insert_eq | done]]).
    all: try (intros so Hso; apply not_elem_of_cons in Hso as [Hne Hl];
              rewrite (Hout so Hl); simpl; by rewrite lookup_insert_ne).
    all: intros Hconf; simpl in *;
      first [by apply Hsrv
            | match goal with Hb : negb _ = true |- _ => rewrite Hconf in Hb; discriminate Hb end].
Qed.

(** X1: [initStorage] always returns, and its result is the new value of
    [configured].  On success the active backend is the one registered
    under the requested name, the registry is empty and the chosen backend
    is not among those scheduled for deletion; on failure the registry is
    as before, nothing is scheduled for deletion, and the active backend is
    as before or null.  Sessions, sockets, server and settings are never
    touched. *)
Theorem initStorage_outcome (dbSettings : QVariantMap) setup s :
  exists ok s1 tr,
    Core.initStorage dbSettings setup s = Core.Done ok s1
    /\ Core.configured s1 = ok
    /\ Core.trace s1 = (Core.trace s ++ tr)
    /\ Core.sessions s1 = Core.sessions s /\ Core.heap s1 = Core.heap s
    /\ Core.blocksizes s1 = Core.blocksizes s /\ Core.clientInfo s1 = Core.clientInfo s
    /\ Core.server s1 = Core.server s /\ Core.settings s1 = Core.settings s
    /\ if ok then
         exists b, Core._storageBackends s !! toString (value dbSettings "Backend") = Some b
                   /\ Core.storage s1 = Some b
                   /\ Core._storageBackends s1 = ∅
                   /\ (b ∉ discarded tr)
                   /\ forall x, x ∈ discarded tr -> x ∈ values (Core._storageBackends s)
       else
         Core._storageBackends s1 = Core._storageBackends s
         /\ discarded tr = []
         /\ (Core.storage s1 = Core.storage s \/ Core.storage s1 = None).
Proof. apply initStorage_returns. Qed.

(** X2: Right after start-up, whatever the settings file and the store hold,
    the active backend is non-null exactly if the core is configured. *)
Theorem startup_storage_invariant sqlite s0 s :
  Core.instance sqlite s0 = Core.Done tt s -> storage_iff_configured s.
Proof. apply instance_storage_iff_configured. Qed.

(** X4: In every reachable state the registry of sessions and the heap agree:
    a registered pointer is a live [SessionThread] of that user, and every
    live [SessionThread] is the registered one of its user. *)
Theorem registry_agrees_with_heap s : reachable s -> sessions_wf s.
Proof. apply reachable_sessions_wf. Qed.

(** X5: [setupClientSession] always returns: the socket ends up among the
    clients of the one session of the user, is no longer tracked by the
    core, and is neither written to nor closed; the sessions of the other
    users are as before. *)
Theorem handoff_attaches_socket socket uid s :
  sessions_wf s ->
  exists s' p th,
    Core.setupClientSession socket uid s = Core.Done tt s'
    /\ Core.sessions s' !! uid = Some p
    /\ Core.heap s' !! p = Some th
    /\ user th = uid
    /\ socket ∈ clients th
    /\ Core.blocksizes s' = delete socket (Core.blocksizes s)
    /\ Core.clientInfo s' = delete socket (Core.clientInfo s)
    /\ closed socket (Core.trace s') = closed socket (Core.trace s)
    /\ written socket (Core.trace s') = written socket (Core.trace s)
    /\ sessions_wf s'
    /\ (forall u, u <> uid -> Core.sessions s' !! u = Core.sessions s !! u).
Proof. apply setupClientSession_returns. Qed.

(** X15: [startListening] always returns and only changes the server and the
    log; it reports success exactly if the IPv6 listen succeeded, or failed
    as an unsupported operation and the IPv4 listen succeeded. *)
Theorem listening_falls_back_to_ipv4 port s :
  exists ok s',
    Core.startListening port s = Core.Done ok s'
    /\ Core.storage s' = Core.storage s /\ Core.configured s' = Core.configured s
    /\ Core._storageBackends s' = Core._storageBackends s
    /\ Core.sessions s' = Core.sessions s /\ Core.heap s' = Core.heap s
    /\ Core.blocksizes s' = Core.blocksizes s /\ Core.clientInfo s' = Core.clientInfo s
    /\ Core.db s' = Core.db s /\ Core.settings s' = Core.settings s
    /\ (ok = true <->
        (Server.listen Server.AnyIPv6 port (Core.server s)).1 = true
        \/ (Server.unsupportedSocketOperation (Server.listen Server.AnyIPv6 port (Core.server s)).2 = true
            /\ (Server.listen Server.Any port (Server.listen Server.AnyIPv6 port (Core.server s)).2).1 = true)).
Proof. apply startListening_returns. Qed.

End Connections.

(** ** Reachable states *)

Lemma reachable_calls {B W Srv : Type} `{EqDecision B}
  `{!Storage.Iface B W} `{!Server.Iface Srv} `{!Globals}
  (cs : list Call) (s s' : Core.t B W Srv) :
  reachable s -> calls cs s = Core.Done tt s' -> reachable s'.
Proof.
  revert s. induction cs as [| c cs IH]; intros s Hs Hrun.
  - injection Hrun as <-. exact Hs.
  - cbn [calls] in Hrun. unfold Core.bind in Hrun.
    destruct (call c s) as [[] s1 | f s1] eqn:E; [| discriminate].
    apply (IH s1); [| exact Hrun]. by apply (reachable_call c s).
Qed.

Lemma live_storage_unconfigured {B W Srv : Type} (s : Core.t B W Srv) b :
  Core.storage s = Some b -> Core.configured s = false -> ~ storage_iff_configured s.
Proof. intros Hb Hc [Hiff _]. rewrite Hb, Hc in Hiff. by specialize (Hiff (mk_is_Some _ _ eq_refl)). Qed.

(** ** Runs of the sample installation *)

Section Scenarios.

Import Sample.

Lemma started_configured : started usedStore sqliteSettings = Core.Done tt configuredCore.
Proof. vm_compute. reflexivity. Qed.

Lemma started_unconfigured : started freshStore noSettings = Core.Done tt unconfiguredCore.
Proof. vm_compute. reflexivity. Qed.

Lemma afterBadSetup_reachable setup :
  calls [IncomingConnection [1%positive];
         ClientHasData 100 1%positive [msgInit; setup]] configuredCore
    = Core.Done tt (afterBadSetup setup) ->
  reachable (afterBadSetup setup).
Proof.
  apply reachable_calls. eapply reachable_instance. exact started_configured.
Qed.

(** C1 fails on the code: a setup request without a backend name, or with
    the name of a backend that is not registered, sent to a configured
    core, leaves a reachable state whose active backend is non-null while
    [configured] is false. *)
Theorem failed_setup_breaks_storage_invariant :
  reachable (afterBadSetup msgSetupNoBackend)
  /\ ~ storage_iff_configured (afterBadSetup msgSetupNoBackend)
  /\ reachable (afterBadSetup (msgSetup "MySQL"))
  /\ ~ storage_iff_configured (afterBadSetup (msgSetup "MySQL")).
Proof.
  split; [apply afterBadSetup_reachable; vm_compute; reflexivity |].
  split; [apply (live_storage_unconfigured _ SqliteStorage); vm_compute; reflexivity |].
  split; [apply afterBadSetup_reachable; vm_compute; reflexivity |].
  apply (live_storage_unconfigured _ SqliteStorage); vm_compute; reflexivity.
Qed.

(** C2 fails on the code: on a core that has never been set up, a client
    that sends [ClientInit] and then [ClientLogin] makes
    [processClientMessage] call [validateUser] through the null [storage]
    pointer. *)
Theorem login_on_unconfigured_core_crashes :
  started freshStore noSettings = Core.Done tt unconfiguredCore
  /\ Core.storage unconfiguredCore = None
  /\ exists s, loginBeforeSetup = Core.Abort (NullDereference "storage") s.
Proof.
  split; [vm_compute; reflexivity |].
  split; [vm_compute; reflexivity |].
  eexists. vm_compute. reflexivity.
Qed.

(** C3 fails on the code: on a configured core, [initStorage] for another
    backend name reports failure and keeps the active backend, but sets
    [configured] to false. *)
Theorem second_backend_request_clears_configured :
  reachable configuredCore
  /\ Core.configured configuredCore = true
  /\ Core.storage configuredCore = Some SqliteStorage
  /\ exists s,
       Core.initStorage otherBackend true configuredCore = Core.Done false s
       /\ Core.storage s = Some SqliteStorage
       /\ Core.configured s = false.
Proof.
  split; [eapply reachable_instance; exact started_configured |].
  split; [vm_compute; reflexivity |].
  split; [vm_compute; reflexivity |].
  eexists. split; [vm_compute; reflexivity |].
  split; vm_compute; reflexivity.
Qed.

(** C7 fails on the code: after a successful setup followed by a setup
    request for an unknown backend, the core is unconfigured with an empty
    registry, and a [ClientInit] is acknowledged with [Configured] false and
    an empty [StorageBackends] list. *)
Theorem unconfigured_init_ack_without_backends :
  exists s earlier reply,
    afterFailedReconfiguration = Core.Done tt s
    /\ reachable s
    /\ Core.configured s = false
    /\ written 1%positive (Core.trace s) = earlier ++ [reply]
    /\ reply !! "MsgType" = Some (QString "ClientInitAck")
    /\ reply !! "Configured" = Some (QBool false)
    /\ reply !! "StorageBackends" = Some (QVList []).
Proof.
  exists (stateOf afterFailedReconfiguration).
  exists (take 3 (written 1%positive (Core.trace (stateOf afterFailedReconfiguration)))).
  exists (default ∅ (written 1%positive (Core.trace (stateOf afterFailedReconfiguration)) !! 3%nat)).
  split; [vm_compute; reflexivity |].
  split; [apply (reachable_calls failedReconfiguration unconfiguredCore);
          [eapply reachable_instance; exact started_unconfigured | vm_compute; reflexivity] |].
  split; [vm_compute; reflexivity |].
  split; [vm_compute; reflexivity |].
  split; [vm_compute; reflexivity |].
  split; vm_compute; reflexivity.
Qed.

(** C4, as stated, fails: on the sample installation the first call
    succeeds and the second call with the same settings does not. *)
Lemma initStorage_retry_not_idempotent :
  exists s1,
    Core.initStorage sqliteBackend false constructed = Core.Done true s1
    /\ Core.storage s1 = Some SqliteStorage
    /\ ~ (exists s2, Core.initStorage sqliteBackend false s1 = Core.Done true s2).
Proof.
  eexists (stateOf (Core.initStorage sqliteBackend false constructed)).
  split; [vm_compute; reflexivity |].
  split; [vm_compute; reflexivity |].
  intros [s2 Hs2].
  assert (E : exists s, Core.initStorage sqliteBackend false
                (stateOf (Core.initStorage sqliteBackend false constructed)) = Core.Done false s)
    by (eexists; vm_compute; reflexivity).
  destruct E as [s E]. congruence.
Qed.

(** *** The general theorems at the sample installation *)


(** C6 at the sample installation: protocol version 5 against a minimum
    of 10. *)
Lemma old_client_rejected_witness :
  exists s',
    Core.processClientMessage 100 1%positive (toMap msgInitOld) configuredCore = Core.Done tt s'
    /\ written 1%positive (Core.trace s') = written 1%positive (Core.trace configuredCore) ++ [initReject]
    /\ closed 1%positive (Core.trace s') = true.
Proof.
  destruct (old_client_rejected 100 1%positive (toMap msgInitOld) configuredCore)
    as (s' & Hrun & _ & _ & _ & Hw & Hc & _);
    [vm_compute; reflexivity | vm_compute; reflexivity |].
  exists s'. split; [exact Hrun |]. split; [exact Hw | exact Hc].
Defined.

(** C8 at the sample installation: alice with a wrong password, and the
    unknown user mallory. *)
Lemma login_reject_uniform_witness :
  exists payload s1' s2',
    Core.processClientMessage 100 1%positive (toMap (msgLogin "alice" "wrong")) handshaken
      = Core.Done tt s1'
    /\ Core.processClientMessage 100 1%positive (toMap (msgLogin "mallory" "secret")) handshaken
      = Core.Done tt s2'
    /\ Core.trace s1' = Core.trace handshaken ++ [WriteDataToDevice 1%positive payload]
    /\ Core.trace s2' = Core.trace handshaken ++ [WriteDataToDevice 1%positive payload].
Proof.
  apply (login_reject_uniform 100 100 1%positive 1%positive
           (toMap (msgLogin "alice" "wrong")) (toMap (msgLogin "mallory" "secret"))
           handshaken handshaken SqliteStorage SqliteStorage); vm_compute; reflexivity.
Defined.

(** C4 (amended) at the sample installation. *)
Lemma initStorage_retry_fails_witness :
  exists b s2,
    Core.storage (stateOf (Core.initStorage sqliteBackend false constructed)) = Some b
    /\ Core.initStorage sqliteBackend true (stateOf (Core.initStorage sqliteBackend false constructed))
       = Core.Done false s2
    /\ Core.storage s2 = Some b
    /\ discarded (Core.trace s2)
       = discarded (Core.trace (stateOf (Core.initStorage sqliteBackend false constructed)))
    /\ Core._storageBackends s2 = ∅
    /\ Core.sessions s2 = Core.sessions (stateOf (Core.initStorage sqliteBackend false constructed))
    /\ Core.heap s2 = Core.heap (stateOf (Core.initStorage sqliteBackend false constructed))
    /\ Core.db s2 = Core.db (stateOf (Core.initStorage sqliteBackend false constructed)).
Proof.
  apply (initStorage_retry_fails sqliteBackend false true constructed). vm_compute. reflexivity.
Defined.

(** C5 at the sample installation: a second client of alice. *)
Lemma one_session_per_user_witness :
  NoDup (liveUsers loggedIn)
  /\ exists s',
       Core.setupClientSession 2%positive 1%Z loggedIn = Core.Done tt s'
       /\ Core.sessions s' = Core.sessions loggedIn
       /\ Core.heap s' = alter (addClient 2%positive) 0%nat (Core.heap loggedIn)
       /\ liveUsers s' = liveUsers loggedIn.
Proof.
  assert (Hreach : reachable loggedIn).
  { apply (reachable_calls loginCalls configuredCore).
    - apply (reachable_instance SqliteStorage false usedStore sqliteSettings). vm_compute. reflexivity.
    - vm_compute. reflexivity. }
  destruct (one_session_per_user loggedIn Hreach) as [Hnd Hreg].
  split; [exact Hnd |].
  destruct (Hreg 1%Z 0%nat false 2%positive) as (_ & _ & Hsetup); [vm_compute; reflexivity |].
  exact Hsetup.
Defined.

(** C9 at the sample installation: saved while alice is logged in,
    restored after a restart. *)
Lemma coreState_roundtrip_witness :
  exists r',
    Core.restoreState restarted = Core.Done tt r'
    /\ liveUsers r' = keys (Core.sessions loggedIn)
    /\ NoDup (liveUsers r')
    /\ dom (Core.sessions r') = dom (Core.sessions loggedIn)
    /\ sessions_wf r'.
Proof.
  destruct (coreState_roundtrip (B:=Backend) (W:=Store) (Srv:=bool)) as [Hround _].
  apply (Hround loggedIn saved restarted); vm_compute; reflexivity.
Defined.

(** *** Further properties at the sample installation *)

Lemma reachable_configuredCore : reachable configuredCore.
Proof. apply (reachable_instance SqliteStorage false usedStore sqliteSettings). vm_compute. reflexivity. Qed.

Lemma reachable_handshaken : reachable handshaken.
Proof.
  apply (reachable_calls handshakeCalls configuredCore); [apply reachable_configuredCore |].
  vm_compute. reflexivity.
Qed.

Lemma reachable_loggedIn : reachable loggedIn.
Proof.
  apply (reachable_calls loginCalls configuredCore); [apply reachable_configuredCore |].
  vm_compute. reflexivity.
Qed.

(** The start-up invariant at the sample installation. *)
Lemma startup_storage_invariant_witness : storage_iff_configured configuredCore.
Proof.
  apply (startup_storage_invariant SqliteStorage (Core.blank false usedStore sqliteSettings)).
  vm_compute. reflexivity.
Defined.

(** A configured core with a logged-in client has its backend. *)
Lemma reachable_configured_has_storage_witness : configured_has_storage loggedIn.
Proof. apply reachable_configured_has_storage. apply reachable_loggedIn. Defined.

(** Registry and heap agree while alice is logged in. *)
Lemma registry_agrees_with_heap_witness : sessions_wf loggedIn.
Proof. apply registry_agrees_with_heap. apply reachable_loggedIn. Defined.

(** A second socket of alice joins her session. *)
Lemma handoff_attaches_socket_witness :
  exists s' p th,
    Core.setupClientSession 2%positive 1%Z loggedIn = Core.Done tt s'
    /\ Core.sessions s' !! 1%Z = Some p
    /\ Core.heap s' !! p = Some th
    /\ 2%positive ∈ clients th.
Proof.
  destruct (handoff_attaches_socket 2%positive 1%Z loggedIn)
    as (s' & p & th & Hrun & Hp & Hth & _ & Hin & _).
  - apply reachable_sessions_wf, reachable_loggedIn.
  - exists s', p, th. split; [exact Hrun |]. split; [exact Hp |]. split; [exact Hth | exact Hin].
Defined.

(** Alice logs in with her password. *)
Lemma login_success_witness :
  exists s' p th,
    Core.processClientMessage 100 1%positive (toMap (msgLogin "alice" "secret")) handshaken
      = Core.Done tt s'
    /\ Core.sessions s' !! 1%Z = Some p
    /\ Core.heap s' !! p = Some th
    /\ 1%positive ∈ clients th
    /\ contains (Core.blocksizes s') 1%positive = false.
Proof.
  destruct (login_success 100 1%positive (toMap (msgLogin "alice" "secret")) handshaken
              SqliteStorage 1%Z)
    as (s' & p & th & Hrun & _ & _ & Hp & Hth & _ & Hin & Hbs & _).
  - vm_compute. reflexivity.
  - vm_compute. reflexivity.
  - vm_compute. reflexivity.
  - vm_compute. reflexivity.
  - discriminate.
  - apply reachable_sessions_wf, reachable_handshaken.
  - exists s', p, th. split; [exact Hrun |]. split; [exact Hp |]. split; [exact Hth |].
    split; [exact Hin | exact Hbs].
Defined.

(** A frame sent right behind the login is left to the session. *)
Lemma login_ends_batch_witness :
  Core.clientHasData 100 1%positive [msgLogin "alice" "secret"; msgInit] handshaken
  = Core.processClientMessage 100 1%positive (toMap (msgLogin "alice" "secret")) handshaken.
Proof.
  apply (login_ends_batch 100 1%positive (toMap (msgLogin "alice" "secret")) [msgInit]
           handshaken SqliteStorage 1%Z).
  - vm_compute. reflexivity.
  - vm_compute. reflexivity.
  - vm_compute. reflexivity.
  - vm_compute. reflexivity.
  - vm_compute. reflexivity.
  - discriminate.
  - apply reachable_sessions_wf, reachable_handshaken.
Defined.


(** The first init message on a core that has never been set up. *)
Lemma clientInit_acknowledged_witness :
  exists (reply : QVariantMap) s',
    Core.processClientMessage 100 1%positive (toMap msgInit) unconfiguredCore = Core.Done tt s'
    /\ reply !! "Configured" = Some (QBool (Core.configured unconfiguredCore))
    /\ reply !! "LoginEnabled" = Some (QBool (Core.configured unconfiguredCore))
    /\ Core.clientInfo s' = <[1%positive := toMap msgInit]> (Core.clientInfo unconfiguredCore).
Proof.
  destruct (clientInit_acknowledged 100 1%positive (toMap msgInit) unconfiguredCore)
    as (reply & s' & Hrun & _ & _ & Hci & _ & _ & Hconf & Hlogin & _).
  - vm_compute. reflexivity.
  - vm_compute. discriminate.
  - exists reply, s'. split; [exact Hrun |]. split; [exact Hconf |].
    split; [exact Hlogin | exact Hci].
Defined.

End Scenarios.
